(** * RAG notebook: preprocessing, ranking, context assembly, answering

    A shallow embedding of the code cells of [RAG/rag_notebook.ipynb].

    - Python [str] values are sequences of Unicode code points ([pystr]).
    - Python floats are IEEE binary64 values ([PrimFloat.float]).
    - Python exceptions are carried by a small error monad ([result]).
    - The third-party collaborators the notebook calls (dateutil's [parse],
      the OpenAI client, scipy's metrics, the order computed by pandas'
      [sort_values], tiktoken's encoder) are fields of interface classes;
      deterministic stubs instantiate them for concrete runs. *)

From Stdlib Require Import ZArith NArith List Lia Floats String Ascii.
From stdpp Require Import base list.
Import ListNotations.

(** ** Python values *)

Module Py.

(** A [str] is a sequence of code points. *)
Definition pystr : Type := list N.

(** An ASCII literal as a [str]. *)
Definition str (s : string) : pystr :=
  List.map N_of_ascii (list_ascii_of_string s).

Definition NL : N := 10%N.
Definition QUOTE : N := 34%N.
(** U+2013, the en dash the notebook splits and filters on. *)
Definition EN_DASH : N := 8211%N.

(** [len(s)] *)
Definition len {A} (l : list A) : Z := Z.of_nat (length l).

(** [c.isspace()] for a single code point. *)
Definition isspace (c : N) : bool :=
  ((9 <=? c) && (c <=? 13) || (28 <=? c) && (c <=? 32)
   || (c =? 133) || (c =? 160) || (c =? 5760)
   || (8192 <=? c) && (c <=? 8202)
   || (c =? 8232) || (c =? 8233) || (c =? 8239) || (c =? 8287)
   || (c =? 12288))%N.

Fixpoint lstrip (s : pystr) : pystr :=
  match s with
  | c :: s' => if isspace c then lstrip s' else s
  | [] => []
  end.

(** [s.strip()] *)
Definition strip (s : pystr) : pystr := rev (lstrip (rev (lstrip s))).

(** [s.split(sep)] for a separator of one code point. *)
Fixpoint split (sep : N) (s : pystr) : list pystr :=
  match s with
  | [] => [[]]
  | c :: s' =>
      if (c =? sep)%N then [] :: split sep s'
      else match split sep s' with
           | part :: parts => (c :: part) :: parts
           | [] => [[c]]
           end
  end.

(** [sep in s], also pandas' [str.contains(sep)], for a pattern of one
    ordinary code point. *)
Definition contains (sep : N) (s : pystr) : bool :=
  existsb (fun c => (c =? sep)%N) s.

(** [s.startswith(p)] *)
Fixpoint startswith (p s : pystr) : bool :=
  match p, s with
  | [], _ => true
  | a :: p', b :: s' => (a =? b)%N && startswith p' s'
  | _ :: _, [] => false
  end.

(** [sep.join(parts)] *)
Fixpoint join (sep : pystr) (parts : list pystr) : pystr :=
  match parts with
  | [] => []
  | [p] => p
  | p :: rest => p ++ sep ++ join sep rest
  end.

(** [s.replace(old, new)] for [old] of one code point. *)
Definition replace (old : N) (new : pystr) (s : pystr) : pystr :=
  List.flat_map (fun c => if (c =? old)%N then new else [c]) s.

(** Exceptions: instances of classes below [Exception], and the others
    ([KeyboardInterrupt], [SystemExit], ...), which [except Exception]
    lets through and a bare [except:] catches. *)
Inductive exn : Type :=
| PyException (cls msg : pystr)
| PyBaseException (cls msg : pystr).

Definition isinstance_Exception (e : exn) : bool :=
  match e with PyException _ _ => true | PyBaseException _ _ => false end.

(** [str(e)] *)
Definition str_of (e : exn) : pystr :=
  match e with PyException _ msg | PyBaseException _ msg => msg end.

Inductive result (A : Type) : Type :=
| Ok (a : A)
| Raise (e : exn).
Arguments Ok {A} a.
Arguments Raise {A} e.

Definition bind {A B} (r : result A) (k : A -> result B) : result B :=
  match r with
  | Ok a => k a
  | Raise e => Raise e
  end.

(** A list comprehension whose body may raise. *)
Fixpoint mapM {A B} (f : A -> result B) (l : list A) : result (list B) :=
  match l with
  | [] => Ok []
  | a :: l' => bind (f a) (fun b => bind (mapM f l') (fun bs => Ok (b :: bs)))
  end.

(** [l[i]] *)
Definition index {A} (l : list A) (i : nat) : result A :=
  match l !! i with
  | Some a => Ok a
  | None => Raise (PyException (str "IndexError") (str "list index out of range"))
  end.

End Py.
Import Py.

Declare Scope py_scope.
Delimit Scope py_scope with py.
Notation "x <- c1 ;; c2" := (Py.bind c1 (fun x => c2))
  (at level 100, c1 at next level, right associativity) : py_scope.
Open Scope py_scope.

(** ** Fragment preprocessor (cells `df = ...`, `is_date`, carry-forward loop) *)

(** dateutil's [parse]: returns a datetime or raises. *)
Class DateParser : Type := {
  datetime : Type;
  parse : pystr -> result datetime
}.

(** The string the loop prepends between the carried date and the line. *)
Definition SEP : pystr := [32%N; EN_DASH; 32%N].

(** A fragment of the corpus. [date_tag] is the value the loop's
    [current_date] holds when the fragment's row has been visited; the
    notebook keeps only the text in the frame. *)
Record Fragment : Type := {
  fragment_text : pystr;
  date_tag : option pystr
}.

Section Preprocessor.
Context {P : DateParser}.

(** [def is_date(string)] *)
Definition is_date (string : pystr) : bool * option pystr :=
  let possible_date_string := strip (hd [] (split EN_DASH string)) in
  match parse possible_date_string with
  | Ok _ => (true, Some possible_date_string)
  | Raise _ => (false, None)
  end.

(** [df["text"] = extract.split("\n")] followed by
    [df = df[(df["text"].str.len() > 0) & (~df["text"].str.startswith("=="))]] *)
Definition clean (lines : list pystr) : list pystr :=
  List.filter (fun t => (0 <? len t)%Z && negb (startswith (str "==") t)) lines.

Definition text_column (extract : pystr) : list pystr := clean (split NL extract).

(** One turn of [for _, row in df.iterrows()]. The state is the loop's
    [current_date] and the frame's text column. The frame has a single
    column of objects, so [iterrows] hands out each row as a view of the
    frame's own storage: the assignment to [row["text"]] writes cell [i] of
    [df], which is what the filter after the loop reads. *)
Definition iterrows_step (st : option pystr * list pystr) (i : nat)
  : option pystr * list pystr :=
  let '(current_date, df) := st in
  match df !! i with
  | None => st
  | Some row_text =>
      let '(is_a_date, date) := is_date row_text in
      let current_date := if is_a_date then date else current_date in
      match current_date with
      | Some d =>
          if negb is_a_date
          then (current_date, <[i := d ++ SEP ++ row_text]> df)
          else (current_date, df)
      | None => (current_date, df)
      end
  end.

(** The carry-forward loop: the text column it leaves behind. *)
Definition carry_forward (df : list pystr) : list pystr :=
  snd (foldl iterrows_step (None, df) (seq 0 (length df))).

(** [df = df[df["text"].str.contains(EN_DASH)]] *)
Definition keep_dashed (df : list pystr) : list pystr :=
  List.filter (contains EN_DASH) df.

(** The carry-forward cell as a whole. *)
Definition date_qualify (df : list pystr) : list pystr :=
  keep_dashed (carry_forward df).

(** The preprocessor from raw lines to the text column that is embedded. *)
Definition preprocess (lines : list pystr) : list pystr :=
  date_qualify (clean lines).

(** The same scan written as a recursion over the rows, keeping the date
    in force at each row. *)
Fixpoint scan (current_date : option pystr) (rows : list pystr) : list Fragment :=
  match rows with
  | [] => []
  | row_text :: rest =>
      let '(is_a_date, date) := is_date row_text in
      let current_date := if is_a_date then date else current_date in
      match current_date with
      | Some d =>
          {| fragment_text := if negb is_a_date then d ++ SEP ++ row_text else row_text;
             date_tag := current_date |} :: scan current_date rest
      | None => {| fragment_text := row_text; date_tag := None |} :: scan None rest
      end
  end.

(** The value of [current_date] once [rows] have been visited. *)
Fixpoint date_after (current_date : option pystr) (rows : list pystr) : option pystr :=
  match rows with
  | [] => current_date
  | row_text :: rest =>
      date_after (if fst (is_date row_text) then snd (is_date row_text) else current_date) rest
  end.


(** Whether dateutil accepts a string. *)
Definition parses (s : pystr) : bool :=
  match parse s with Ok _ => true | Raise _ => false end.

(** In the spec's words: the most recently parsed date among the lines
    seen so far, if any line has parsed. *)
Definition most_recent_date (seen : list pystr) : option pystr :=
  last (omap (fun l => snd (is_date l)) seen).



End Preprocessor.

(** A deterministic stub of the date parser: it accepts exactly the
    [dddd-dd-dd] strings. *)
Definition isdigit (c : N) : bool := ((48 <=? c) && (c <=? 57))%N.

Definition iso_date (s : pystr) : bool :=
  match s with
  | [y1; y2; y3; y4; h1; m1; m2; h2; d1; d2] =>
      forallb isdigit [y1; y2; y3; y4; m1; m2; d1; d2] && (h1 =? 45)%N && (h2 =? 45)%N
  | _ => false
  end.

Definition stub_parser : DateParser := {|
  datetime := pystr;
  parse := fun s =>
    if iso_date s then Ok s
    else Raise (PyException (str "ParserError") (str "Unknown string format"))
|}.


(** ** Query time: ranking, context assembly, answering *)

(** An embedding is a sequence of binary64 floats. *)
Definition vec : Type := list float.

(** A row of the embedded frame (columns [text] and [embeddings]), and a row
    of the frame [get_rows_by_relevance] returns (with [distances]). *)
Record Row : Type := {
  text : pystr;
  embeddings : vec
}.

Record RankedRow : Type := {
  row :> Row;
  distances : float
}.

(** The collaborators of the query path. *)
Class Services : Type := {
  (** [client.embeddings.create(input=..., model=...)]: the embeddings of
      [response.data], in order *)
  embeddings_create : list pystr -> pystr -> result (list vec);
  (** [scipy.spatial.distance]: [cosine], [cityblock], [euclidean], [chebyshev] *)
  cosine : vec -> vec -> result float;
  cityblock : vec -> vec -> result float;
  euclidean : vec -> vec -> result float;
  chebyshev : vec -> vec -> result float;
  (** the positions, in their new order, that [sort_values(..., ascending=True)]
      computes from the column it sorts by *)
  argsort : list float -> list nat;
  (** [tiktoken.get_encoding("cl100k_base").encode] *)
  encode : pystr -> list nat;
  (** [client.completions.create(model=..., prompt=..., max_tokens=...)]: the
      texts of [response.choices], in order *)
  completions_create : pystr -> pystr -> Z -> result (list pystr)
}.

Definition COMPLETION_MODEL_NAME : pystr := str "gpt-3.5-turbo-instruct".
Definition EMBEDDING_MODEL_NAME : pystr := str "text-embedding-ada-002".

(** [d[k]] on a dict written as its items. *)
Fixpoint getitem {V} (d : list (pystr * V)) (k : pystr) : result V :=
  match d with
  | [] => Raise (PyException (str "KeyError") k)
  | (k', v) :: d' => if bool_decide (k' = k) then Ok v else getitem d' k
  end.

(** [template.format(a, b, ...)] for templates whose replacement fields are all
    the auto-numbered [{}]. *)
Fixpoint format (template : pystr) (args : list pystr) : result pystr :=
  match template with
  | [] => Ok []
  | c :: rest =>
      if (c =? 123)%N then
        match rest with
        | c2 :: rest2 =>
            if (c2 =? 125)%N then
              match args with
              | a :: args' => r <- format rest2 args' ;; Ok (a ++ r)
              | [] => Raise (PyException (str "IndexError")
                               (str "Replacement index out of range"))
              end
            else if (c2 =? 123)%N then r <- format rest2 args ;; Ok (123%N :: r)
            else Raise (PyException (str "ValueError") (str "unsupported field"))
        | [] => Raise (PyException (str "ValueError")
                         (str "Single '{' encountered in format string"))
        end
      else if (c =? 125)%N then
        match rest with
        | c2 :: rest2 =>
            if (c2 =? 125)%N then r <- format rest2 args ;; Ok (125%N :: r)
            else Raise (PyException (str "ValueError")
                          (str "Single '}' encountered in format string"))
        | [] => Raise (PyException (str "ValueError")
                         (str "Single '}' encountered in format string"))
        end
      else r <- format rest args ;; Ok (c :: r)
  end.

(** The template of [create_prompt], cut at its two slots. *)
Definition template_head : pystr :=
  [NL] ++ str "Answer the question based on the context below, and if the question"
  ++ [NL] ++ str "can't be answered based on the context, say "
  ++ [QUOTE] ++ str "I don't know" ++ [QUOTE] ++ [NL; NL]
  ++ str "Context: " ++ [NL; NL].

Definition template_mid : pystr :=
  [NL; NL] ++ str "---" ++ [NL; NL] ++ str "Question: ".

Definition template_tail : pystr := [NL] ++ str "Answer:".

Definition prompt_template : pystr :=
  template_head ++ str "{}" ++ template_mid ++ str "{}" ++ template_tail.

(** The string the accepted texts are joined with. *)
Definition JOINER : pystr := [NL; NL] ++ str "###" ++ [NL; NL].

(** What the standard output holds: the lines printed so far. *)
Definition stdout : Type := list pystr.

Section Query.
Context {svc : Services}.
Open Scope Z_scope.

(** [def get_embedding(text, model_name)] *)
Definition get_embedding (text : pystr) (model_name : pystr) : result vec :=
  let text := replace NL (str " ") text in
  data <- embeddings_create [text] model_name ;;
  index data 0.

Definition distance_metrics : list (pystr * (vec -> vec -> result float)) :=
  [(str "cosine", cosine); (str "L1", cityblock);
   (str "L2", euclidean); (str "inf", chebyshev)].

(** [def distances_from_embeddings(query_embedding, embeddings, distance_metric)] *)
Definition distances_from_embeddings
    (query_embedding : vec) (embeddings : list vec) (distance_metric : pystr)
  : result (list float) :=
  mapM (fun embedding =>
          metric <- getitem distance_metrics distance_metric ;;
          metric query_embedding embedding)
       embeddings.

(** [df.sort_values("distances", ascending=True, inplace=True)]: the rows
    taken in the order of the positions computed from the [distances]
    column. *)
Definition sort_values (df : list RankedRow) : list RankedRow :=
  omap (fun i => df !! i) (argsort (List.map distances df)).

(** [def get_rows_by_relevance(question, df)] *)
Definition get_rows_by_relevance (question : pystr) (df : list Row)
  : result (list RankedRow) :=
  q_embedding <- get_embedding question EMBEDDING_MODEL_NAME ;;
  ds <- distances_from_embeddings q_embedding (List.map embeddings df) (str "cosine") ;;
  let df_copy := zip_with (fun r d => {| row := r; distances := d |}) df ds in
  Ok (sort_values df_copy).

(** [len(tokenizer.encode(text))] *)
Definition count_tokens (text : pystr) : Z := len (encode text).

(** The [for text in ...] loop of [create_prompt], with its [break]. *)
Fixpoint pack (max_token_count : Z) (texts : list pystr)
    (current_token_count : Z) (context : list pystr) : list pystr :=
  match texts with
  | [] => context
  | text :: rest =>
      let current_token_count := current_token_count + len (encode text) in
      if current_token_count <? max_token_count
      then pack max_token_count rest current_token_count (context ++ [text])
      else context
  end.

(** The list [context] as the loop leaves it, for the ranked texts. *)
Definition select_context (question : pystr) (texts : list pystr)
    (max_token_count : Z) : list pystr :=
  pack max_token_count texts
       (len (encode prompt_template) + len (encode question)) [].

(** [def create_prompt(question, df, max_token_count)] *)
Definition create_prompt (question : pystr) (df : list Row) (max_token_count : Z)
  : result pystr :=
  let current_token_count := len (encode prompt_template) + len (encode question) in
  ranked <- get_rows_by_relevance question df ;;
  let context :=
    pack max_token_count (List.map (fun r : RankedRow => text r) ranked)
         current_token_count [] in
  format prompt_template [join JOINER context; question].

(** The body of the [try]: the completion call and [response.choices[0].text]. *)
Definition complete (prompt : pystr) (max_answer_tokens : Z) : result pystr :=
  choices <- completions_create COMPLETION_MODEL_NAME prompt max_answer_tokens ;;
  index choices 0.

(** [def answer_question(question, df, max_prompt_tokens, max_answer_tokens)],
    threading the standard output. *)
Definition answer_question (question : pystr) (df : list Row)
    (max_prompt_tokens max_answer_tokens : Z) (out : stdout)
  : result (pystr * pystr) * stdout :=
  match create_prompt question df max_prompt_tokens with
  | Raise e => (Raise e, out)
  | Ok prompt =>
      match complete prompt max_answer_tokens with
      | Ok answer => (Ok (answer, prompt), out)
      | Raise e =>
          if isinstance_Exception e
          then (Ok ([], prompt), out ++ [str_of e])
          else (Raise e, out)
      end
  end.

(** The call with the default limits. *)
Definition answer_question_default (question : pystr) (df : list Row) (out : stdout)
  : result (pystr * pystr) * stdout :=
  answer_question question df 1500 500 out.

(** Sum of the token counts of texts counted one by one, as the loop does. *)
Definition tokens_of (texts : list pystr) : Z :=
  fold_right (fun t acc => count_tokens t + acc) 0 texts.

(** The count the spec's budget property speaks of: template, question
    and the joined context block. *)
Definition prompt_token_count (question : pystr) (context : list pystr) : Z :=
  count_tokens prompt_template + count_tokens question
  + count_tokens (join JOINER context).

(** What [sort_values] is expected to deliver on a column of keys: every
    position exactly once, and no row placed after a row whose key is
    strictly larger. *)
Definition sorted_positions (keys : list float) (order : list nat) : bool :=
  (length order =? length keys)%nat
  && forallb (fun i => existsb (Nat.eqb i) order) (seq 0 (length keys))
  && forallb (fun b =>
       forallb (fun a =>
         match order !! a, order !! b with
         | Some ia, Some ib =>
             match keys !! ia, keys !! ib with
             | Some ka, Some kb => negb (PrimFloat.ltb kb ka)
             | _, _ => false
             end
         | _, _ => false
         end) (seq 0 b)) (seq 0 (length order)).

End Query.

(** ** The tokenizer's failures

    The definitions above take tiktoken's tokens as given ([encode] is
    total): they describe the context loop on texts the tokenizer accepts.
    The definitions below follow the same lines of [create_prompt] and
    [answer_question] together with what tiktoken may do instead of
    returning tokens: loading the encoding may fail, and [encode] may
    raise; called with its default arguments, as here, it raises
    [ValueError] on a text that holds one of the encoding's special
    tokens. *)

Class Tiktoken : Type := {
  (** [tiktoken.get_encoding("cl100k_base")] *)
  get_encoding : result unit;
  (** the exception [tokenizer.encode(text)] raises, if it raises one *)
  encode_error : pystr -> option exn
}.

Section Tokenizer.
Context {svc : Services} {tk : Tiktoken}.
Open Scope Z_scope.

(** [tokenizer.encode(text)] *)
Definition encode_checked (text : pystr) : result (list nat) :=
  match encode_error text with
  | Some e => Raise e
  | None => Ok (encode text)
  end.

(** The [for text in ...] loop of [create_prompt]: each text is encoded
    before its count is compared. *)
Fixpoint pack_checked (max_token_count : Z) (texts : list pystr)
    (current_token_count : Z) (context : list pystr) : result (list pystr) :=
  match texts with
  | [] => Ok context
  | text :: rest =>
      tokens <- encode_checked text ;;
      let current_token_count := current_token_count + len tokens in
      if current_token_count <? max_token_count
      then pack_checked max_token_count rest current_token_count (context ++ [text])
      else Ok context
  end.

(** [def create_prompt(question, df, max_token_count)]: the encoding is
    loaded and template and question are encoded before the frame is
    ranked. *)
Definition create_prompt_checked (question : pystr) (df : list Row)
    (max_token_count : Z) : result pystr :=
  _ <- get_encoding ;;
  template_tokens <- encode_checked prompt_template ;;
  question_tokens <- encode_checked question ;;
  let current_token_count := len template_tokens + len question_tokens in
  ranked <- get_rows_by_relevance question df ;;
  context <- pack_checked max_token_count
               (List.map (fun r : RankedRow => text r) ranked)
               current_token_count [] ;;
  format prompt_template [join JOINER context; question].

(** [def answer_question(question, df, max_prompt_tokens, max_answer_tokens)] *)
Definition answer_question_checked (question : pystr) (df : list Row)
    (max_prompt_tokens max_answer_tokens : Z) (out : stdout)
  : result (pystr * pystr) * stdout :=
  match create_prompt_checked question df max_prompt_tokens with
  | Raise e => (Raise e, out)
  | Ok prompt =>
      match complete prompt max_answer_tokens with
      | Ok answer => (Ok (answer, prompt), out)
      | Raise e =>
          if isinstance_Exception e
          then (Ok ([], prompt), out ++ [str_of e])
          else (Raise e, out)
      end
  end.

(** The texts the loop encodes: the context and the text it stops at. *)
Definition encoded_texts (question : pystr) (texts : list pystr)
    (max_token_count : Z) : list pystr :=
  take (S (length (select_context question texts max_token_count))) texts.

(** The exception of the first text, in order, that the tokenizer
    refuses. *)
Definition first_encode_error (texts : list pystr) : option exn :=
  head (omap encode_error texts).

End Tokenizer.

(** ** Deterministic stubs of the collaborators *)

Module Stub.

Definition fabs (x : float) : float := PrimFloat.abs x.

Definition zipf (f : float -> float -> float) (u v : vec) : list float :=
  zip_with f u v.

Definition sum (l : list float) : float :=
  fold_left (fun acc x => (acc + x)%float) l 0%float.

Definition dot (u v : vec) : float := sum (zipf PrimFloat.mul u v).

Definition same_shape (u v : vec) (d : float) : result float :=
  if (length u =? length v)%nat then Ok d
  else Raise (PyException (str "ValueError") (str "shapes not aligned")).

(** [1 - u.v / sqrt(u.u * v.v)] *)
Definition cosine (u v : vec) : result float :=
  same_shape u v (1 - dot u v / PrimFloat.sqrt (dot u u * dot v v))%float.

Definition cityblock (u v : vec) : result float :=
  same_shape u v (sum (zipf (fun a b => fabs (a - b)%float) u v)).

Definition euclidean (u v : vec) : result float :=
  same_shape u v
    (PrimFloat.sqrt (sum (zipf (fun a b => ((a - b) * (a - b))%float) u v))).

Definition chebyshev (u v : vec) : result float :=
  same_shape u v
    (fold_left (fun acc x => if PrimFloat.ltb acc x then x else acc)
               (zipf (fun a b => fabs (a - b)%float) u v) 0%float).

(** Key order with NaN last. *)
Definition before (a b : float) : bool :=
  if PrimFloat.is_nan b then negb (PrimFloat.is_nan a) else PrimFloat.ltb a b.

Fixpoint insert_position (keys : list float) (i : nat) (order : list nat) : list nat :=
  match order with
  | [] => [i]
  | j :: rest =>
      if before (nth i keys PrimFloat.nan) (nth j keys PrimFloat.nan)
      then i :: order
      else j :: insert_position keys i rest
  end.

(** A stable insertion sort of the positions. *)
Definition argsort (keys : list float) : list nat :=
  fold_left (fun order i => insert_position keys i order) (seq 0 (length keys)) [].

(** One token per code point. *)
Definition encode (s : pystr) : list nat := List.map N.to_nat s.

(** Every text gets the same embedding. *)
Definition embeddings_create (input : list pystr) (model : pystr) : result (list vec) :=
  Ok (List.map (fun _ => [1%float; 0%float]) input).

(** The completion service refuses a non-positive [max_tokens]. *)
Definition completions_create (model prompt : pystr) (max_tokens : Z)
  : result (list pystr) :=
  if (0 <? max_tokens)%Z then Ok [str "stub answer"]
  else Raise (PyException (str "BadRequestError") (str "max_tokens must be positive")).

Definition services : Services :=
  Build_Services embeddings_create cosine cityblock euclidean chebyshev
                 argsort encode completions_create.

(** Frames for concrete runs. The stub embeds every question as [(1, 0)]. *)
Definition frame_costs : list Row :=
  [ {| text := repeat 99%N 100; embeddings := [0%float; 1%float] |};
    {| text := str "aaaaa"; embeddings := [1%float; 0%float] |};
    {| text := str "dd"; embeddings := [(-1)%float; 0%float] |};
    {| text := str "bbb"; embeddings := [1%float; 1%float] |} ].

Definition frame_pair : list Row :=
  [ {| text := str "ab"; embeddings := [1%float; 0%float] |};
    {| text := str "cd"; embeddings := [1%float; 1%float] |} ].

Definition frame_parallel : list Row :=
  [ {| text := str "parallel"; embeddings := [2%float; 0%float] |};
    {| text := str "identical"; embeddings := [1%float; 0%float] |} ].

(** [frame_costs] as the stubs rank it for any question. *)
Definition ranked_costs : list RankedRow :=
  Eval vm_compute in
    match get_rows_by_relevance (svc := services) (str "q") frame_costs with
    | Ok ranked => ranked
    | Raise _ => []
    end.

(** [1 - u.v / sqrt(u.u * v.v)], the value [cosine] returns for vectors
    of one shape. *)
Definition cosine_formula (u v : vec) : float :=
  (1 - dot u v / PrimFloat.sqrt (dot u u * dot v v))%float.

(** Python's [max(0, min(d, 2.0))]. *)
Definition clamp (d : float) : float :=
  let m := if PrimFloat.ltb 2 d then 2%float else d in
  if PrimFloat.ltb 0 m then m else 0%float.

(** The metric as the scipy releases return it that end [cosine] in
    [max(0, min(d, 2.0))]: the NaN of [0/0] comes out as 0. *)
Definition cosine_clamped (u v : vec) : result float :=
  same_shape u v (clamp (cosine_formula u v)).

Definition services_clamped : Services :=
  Build_Services embeddings_create cosine_clamped cityblock euclidean chebyshev
                 argsort encode completions_create.

(** A frame with a zero vector in its second row. *)
Definition frame_zero : list Row :=
  [ {| text := str "regular"; embeddings := [1%float; 1%float] |};
    {| text := str "zero"; embeddings := [0%float; 0%float] |} ].

(** An embedding service that answers with a vector of large magnitude,
    [(2^333, 0)]: the square of its squared norm is beyond binary64. *)
Definition large : vec := [0x1p+333%float; 0%float].

Definition embeddings_create_large (input : list pystr) (model : pystr)
  : result (list vec) :=
  Ok (List.map (fun _ => large) input).

Definition services_large : Services :=
  Build_Services embeddings_create_large cosine cityblock euclidean chebyshev
                 argsort encode completions_create.

Definition frame_large : list Row :=
  [ {| text := str "identical"; embeddings := large |};
    {| text := str "parallel"; embeddings := [1%float; 0%float] |} ].

(** The special tokens of [cl100k_base]. *)
Definition special_tokens : list pystr :=
  [ str "<|endoftext|>"; str "<|fim_prefix|>"; str "<|fim_middle|>";
    str "<|fim_suffix|>"; str "<|endofprompt|>" ].

(** [p in s] *)
Fixpoint holds (p s : pystr) : bool :=
  startswith p s
  || match s with
     | [] => false
     | _ :: s' => holds p s'
     end.

Definition special_token_error : exn :=
  PyException (str "ValueError")
    (str "Encountered text corresponding to disallowed special token").

(** The encoding loads, and a text is refused when it holds a special
    token. *)
Definition tiktoken : Tiktoken :=
  Build_Tiktoken
    (Ok tt)
    (fun text =>
       if existsb (fun p => holds p text) special_tokens
       then Some special_token_error
       else None).

End Stub.

(** ** Building the corpus: the embedding cells *)

(** [batch_size = 100] *)
Definition batch_size : nat := 100.

(** [range(0, stop, step)] for a positive [step]. *)
Definition range (stop step : nat) : list nat :=
  List.map (fun k => k * step) (seq 0 ((stop + step - 1) / step)).

(** [l[start:stop]] *)
Definition slice {A} (l : list A) (start stop : nat) : list A :=
  take (stop - start) (drop start l).

Section Corpus.
Context {svc : Services}.

(** One turn of [for idx in range(0, len(df), batch_size)]: the request for
    the texts [df.iloc[idx : idx + batch_size]] and the [extend] of the
    list [embeddings]. A turn that raises ends the loop. *)
Definition embed_batch (texts : list pystr) (embeddings : result (list vec))
    (idx : nat) : result (list vec) :=
  embeddings <- embeddings ;;
  data <- embeddings_create (slice texts idx (idx + batch_size)) EMBEDDING_MODEL_NAME ;;
  Ok (embeddings ++ data).

(** The loop, started with the list [embeddings] as it stands. *)
Definition embed_frame (texts : list pystr) (embeddings : list vec)
  : result (list vec) :=
  foldl (embed_batch texts) (Ok embeddings) (range (length texts) batch_size).

(** [df["embeddings"] = embeddings], on the frame's text column. A list as
    long as the frame becomes the new column. A frame with no rows takes
    its index from a list that is not empty: it gets one row per element,
    with the missing value ([None]) for its text. Any other list raises
    [ValueError]. *)
Definition set_embeddings (texts : list pystr) (embeddings : list vec)
  : result (list (option pystr * vec)) :=
  if (length embeddings =? length texts)%nat
  then Ok (zip_with (fun text embedding => (Some text, embedding)) texts embeddings)
  else if (length texts =? 0)%nat
  then Ok (List.map (fun embedding => (None, embedding)) embeddings)
  else Raise (PyException (str "ValueError")
                (str "Length of values does not match length of index")).

(** The rows of a frame that have their text. *)
Definition rows (frame : list (option pystr * vec)) : list Row :=
  omap (fun cell : option pystr * vec =>
          match fst cell with
          | Some text => Some {| text := text; embeddings := snd cell |}
          | None => None
          end)
       frame.

(** The three cells in a row: [embeddings = []], the loop, the assignment.
    The list starts empty, so it is not empty only when the frame has
    rows, and every row of the frame it is assigned to has its text. *)
Definition embed_corpus (texts : list pystr) : result (list Row) :=
  embeddings <- embed_frame texts [] ;;
  frame <- set_embeddings texts embeddings ;;
  Ok (rows frame).

End Corpus.

(** The requests the loop sends, in order. *)
Definition batches (texts : list pystr) : list (list pystr) :=
  List.map (fun idx => slice texts idx (idx + batch_size))
           (range (length texts) batch_size).

(** No blank at either end. *)
Definition hd_nonspace (s : pystr) : Prop :=
  match s with
  | [] => True
  | c :: _ => isspace c = false
  end.

(** An output line stands for an input line: verbatim, or behind a date and
    the separator. *)
Definition carries (out line : pystr) : Prop :=
  out = line \/ exists d, out = d ++ SEP ++ line.

(** A stub of the embedding service that, like the real one, refuses an
    empty text. *)
Definition strict_embeddings_create (input : list pystr) (model : pystr)
  : result (list vec) :=
  if forallb (fun t => (0 <? len t)%Z) input
  then Ok (List.map (fun t => [PrimFloat.of_uint63 (Uint63.of_Z (len t)); 1%float]) input)
  else Raise (PyException (str "BadRequestError") (str "input must not be empty")).

Definition strict_services : Services :=
  Build_Services strict_embeddings_create Stub.cosine Stub.cityblock Stub.euclidean
                 Stub.chebyshev Stub.argsort Stub.encode Stub.completions_create.
(** ** Facts about the string helpers *)


Lemma contains_app (sep : N) (a b : pystr) :
  contains sep (a ++ b) = contains sep a || contains sep b.
Proof. unfold contains. apply existsb_app. Qed.

Lemma contains_SEP (a b : pystr) : contains EN_DASH (a ++ SEP ++ b) = true.
Proof.
  rewrite !contains_app. replace (contains EN_DASH SEP) with true by reflexivity.
  now rewrite orb_true_r.
Qed.

(** ** Facts about the carry-forward loop *)

Section PreprocessorFacts.
Context {P : DateParser}.

Lemma is_date_parses (s : pystr) :
  is_date s =
    if parses (strip (hd [] (split EN_DASH s)))
    then (true, Some (strip (hd [] (split EN_DASH s))))
    else (false, None).
Proof. unfold is_date, parses. now destruct (parse _). Qed.

Lemma is_date_cases (s : pystr) :
  is_date s = (true, Some (strip (hd [] (split EN_DASH s))))
  \/ is_date s = (false, None).
Proof. rewrite is_date_parses. destruct (parses _); auto. Qed.

Lemma scan_length (rows : list pystr) : forall cd, length (scan cd rows) = length rows.
Proof.
  induction rows as [|r rows IH]; intros cd; simpl; [reflexivity|].
  destruct (is_date r) as [b d]. destruct (if b then d else cd); simpl; now rewrite IH.
Qed.

Lemma scan_app (a b : list pystr) :
  forall cd, scan cd (a ++ b) = scan cd a ++ scan (date_after cd a) b.
Proof.
  induction a as [|r a IH]; intros cd; simpl; [reflexivity|].
  destruct (is_date_cases r) as [E|E]; rewrite E; simpl.
  - now rewrite IH.
  - destruct cd; simpl; now rewrite IH.
Qed.

(** The loop over row positions, writing through the rows, leaves what
    the recursion over the rows computes. *)
Lemma foldl_iterrows (todo : list pystr) :
  forall (done : list pystr) (cd : option pystr),
    foldl iterrows_step (cd, done ++ todo) (seq (length done) (length todo))
    = (date_after cd todo, done ++ List.map fragment_text (scan cd todo)).
Proof.
  induction todo as [|r todo IH]; intros done cd; simpl; [reflexivity|].
  rewrite list_lookup_middle by reflexivity.
  destruct (is_date_cases r) as [E|E]; rewrite E; simpl.
  - replace (done ++ r :: todo) with ((done ++ [r]) ++ todo)
      by now rewrite <- app_assoc.
    replace (S (length done)) with (length (done ++ [r]))
      by (rewrite length_app; simpl; lia).
    rewrite IH. now rewrite <- app_assoc.
  - destruct cd as [d|]; simpl.
    + replace (<[length done := d ++ SEP ++ r]> (done ++ r :: todo))
        with ((done ++ [d ++ SEP ++ r]) ++ todo).
      2:{ rewrite <- app_assoc. simpl.
          replace (length done) with (length done + 0) at 1 by lia.
          now rewrite insert_app_r. }
      replace (S (length done)) with (length (done ++ [d ++ SEP ++ r]))
        by (rewrite length_app; simpl; lia).
      rewrite IH. now rewrite <- app_assoc.
    + replace (done ++ r :: todo) with ((done ++ [r]) ++ todo)
        by now rewrite <- app_assoc.
      replace (S (length done)) with (length (done ++ [r]))
        by (rewrite length_app; simpl; lia).
      rewrite IH. now rewrite <- app_assoc.
Qed.

Lemma carry_forward_scan (df : list pystr) :
  carry_forward df = List.map fragment_text (scan None df).
Proof.
  unfold carry_forward.
  change (foldl iterrows_step (None, df) (seq 0 (length df)))
    with (foldl iterrows_step (None, [] ++ df) (seq (length (@nil pystr)) (length df))).
  now rewrite foldl_iterrows.
Qed.


Lemma date_after_most_recent (seen : list pystr) :
  forall cd,
    date_after cd seen
    = match most_recent_date seen with Some d => Some d | None => cd end.
Proof.
  unfold most_recent_date.
  induction seen as [|r seen IH]; intros cd; simpl; [reflexivity|].
  rewrite IH.
  destruct (is_date_cases r) as [E|E]; rewrite E; simpl.
  - rewrite last_cons. now destruct (last _).
  - reflexivity.
Qed.



End PreprocessorFacts.

(** ** Facts about the context loop *)

Lemma format_prompt_template (context question : pystr) :
  format prompt_template [context; question]
  = Ok (template_head ++ context ++ template_mid ++ question ++ template_tail).
Proof. vm_compute. reflexivity. Qed.

Section QueryFacts.
Context {svc : Services}.
Open Scope Z_scope.

Lemma count_tokens_nonneg (t : pystr) : 0 <= count_tokens t.
Proof. unfold count_tokens, len. lia. Qed.

Lemma tokens_of_nonneg (texts : list pystr) : 0 <= tokens_of texts.
Proof.
  induction texts as [|t texts IH]; simpl; [lia|].
  pose proof (count_tokens_nonneg t). lia.
Qed.

Lemma tokens_of_app (a b : list pystr) :
  tokens_of (a ++ b) = tokens_of a + tokens_of b.
Proof. induction a as [|t a IH]; simpl; lia. Qed.

(** The accumulator [context] is only ever appended to. *)
Lemma pack_context (max_token_count : Z) (texts : list pystr) :
  forall current context,
    pack max_token_count texts current context
    = context ++ pack max_token_count texts current [].
Proof.
  induction texts as [|t texts IH]; intros current context; simpl.
  - now rewrite app_nil_r.
  - destruct (_ <? _); [|now rewrite app_nil_r].
    rewrite (IH _ (context ++ [t])), (IH _ [t]). now rewrite <- app_assoc.
Qed.

Lemma pack_cons (max_token_count : Z) (t : pystr) (texts : list pystr) (current : Z) :
  pack max_token_count (t :: texts) current []
  = if current + count_tokens t <? max_token_count
    then t :: pack max_token_count texts (current + count_tokens t) []
    else [].
Proof.
  simpl. unfold count_tokens. destruct (_ <? _); [|reflexivity].
  now rewrite pack_context.
Qed.

(** Whatever was accepted fits the budget, counted text by text. *)
Lemma pack_budget (max_token_count : Z) (texts : list pystr) :
  forall current,
    pack max_token_count texts current [] <> [] ->
    current + tokens_of (pack max_token_count texts current []) < max_token_count.
Proof.
  induction texts as [|t texts IH]; intros current; [simpl; congruence|].
  rewrite pack_cons.
  destruct (Z.ltb_spec (current + count_tokens t) max_token_count) as [Hlt|Hge];
    [|congruence].
  intros _. simpl.
  destruct (pack max_token_count texts (current + count_tokens t) []) eqn:Hrest.
  - simpl. lia.
  - specialize (IH (current + count_tokens t)). rewrite Hrest in IH.
    specialize (IH ltac:(congruence)). lia.
Qed.

(** A budget already used up lets nothing in. *)
Lemma pack_exhausted (max_token_count : Z) (texts : list pystr) (current : Z) :
  max_token_count <= current ->
  pack max_token_count texts current [] = [].
Proof.
  intros Hle. destruct texts as [|t texts]; [reflexivity|].
  rewrite pack_cons. pose proof (count_tokens_nonneg t).
  destruct (Z.ltb_spec (current + count_tokens t) max_token_count); [lia|reflexivity].
Qed.

(** The loop stops at the first text that does not fit. *)
Lemma pack_stops (max_token_count : Z) (pre : list pystr) :
  forall (t : pystr) (post : list pystr) (current : Z),
    (pre <> [] -> current + tokens_of pre < max_token_count) ->
    max_token_count <= current + tokens_of pre + count_tokens t ->
    pack max_token_count (pre ++ t :: post) current [] = pre.
Proof.
  induction pre as [|p pre IH]; intros t post current Hfit Hover.
  - simpl app. rewrite pack_cons. simpl in Hover.
    destruct (Z.ltb_spec (current + count_tokens t) max_token_count); [lia|reflexivity].
  - simpl app. rewrite pack_cons.
    specialize (Hfit ltac:(congruence)). simpl in Hfit, Hover.
    pose proof (tokens_of_nonneg pre).
    destruct (Z.ltb_spec (current + count_tokens p) max_token_count); [|lia].
    f_equal. apply IH; [intros _|]; lia.
Qed.

Lemma create_prompt_select (question : pystr) (df : list Row) (max_token_count : Z) :
  create_prompt question df max_token_count
  = match get_rows_by_relevance question df with
    | Ok ranked =>
        format prompt_template
          [join JOINER
             (select_context question
                (List.map (fun r : RankedRow => text r) ranked) max_token_count);
           question]
    | Raise e => Raise e
    end.
Proof. unfold create_prompt, select_context, bind. reflexivity. Qed.

End QueryFacts.

(** ** Facts about ranking *)

Lemma lookup_map {A B} (f : A -> B) (l : list A) (i : nat) :
  List.map f l !! i = option_map f (l !! i).
Proof.
  revert i. induction l as [|a l IH]; intros [|i]; simpl; auto.
Qed.

Lemma mapM_Ok {A B} (f : A -> result B) (l : list A) (bs : list B) :
  mapM f l = Ok bs ->
  length bs = length l
  /\ forall j a, l !! j = Some a -> exists b, bs !! j = Some b /\ f a = Ok b.
Proof.
  revert bs. induction l as [|a l IH]; intros bs; simpl.
  - intros [= <-]. split; [reflexivity|]. intros j x Hx. discriminate.
  - destruct (f a) as [b|e] eqn:Hfa; simpl; [|discriminate].
    destruct (mapM f l) as [bs'|e]; simpl; [|discriminate].
    intros [= <-]. destruct (IH bs' eq_refl) as [Hlen Hall].
    split; [simpl; now rewrite Hlen|].
    intros [|j] x; simpl.
    + intros [= <-]. eauto.
    + apply Hall.
Qed.

Lemma mapM_total {A B} (f : A -> result B) (l : list A) :
  (forall j a, l !! j = Some a -> exists b, f a = Ok b) ->
  exists bs, mapM f l = Ok bs.
Proof.
  induction l as [|a l IH]; intros Hall; simpl.
  - now exists [].
  - destruct (Hall 0%nat a eq_refl) as [b Hb]. rewrite Hb. simpl.
    destruct IH as [bs Hbs].
    { intros j x Hx. apply (Hall (S j) x Hx). }
    rewrite Hbs. simpl. now exists (b :: bs).
Qed.

Lemma mapM_ext {A B} (f g : A -> result B) (l : list A) :
  (forall a, f a = g a) -> mapM f l = mapM g l.
Proof.
  intros Hfg. induction l as [|a l IH]; simpl; [reflexivity|].
  now rewrite Hfg, IH.
Qed.

Lemma distances_zip (df : list Row) (keys : list float) :
  length keys = length df ->
  List.map distances (zip_with (fun r d => {| row := r; distances := d |}) df keys)
  = keys.
Proof.
  revert keys. induction df as [|r df IH]; intros [|k keys]; simpl;
    try discriminate; [reflexivity|].
  intros [= Hlen]. now rewrite IH.
Qed.

(** The first row of a frame reordered by positions. *)
Lemma omap_lookup_head {A} (l : list A) (i : nat) (order : list nat) (a : A) :
  l !! i = Some a ->
  exists rest, omap (fun j => l !! j) (i :: order) = a :: rest.
Proof. intros Hi. simpl. rewrite Hi. eauto. Qed.

(** Two frames of one length reordered by the same positions show, at the
    front, rows that stood at one and the same position. *)
Lemma omap_lookup_same_position {A} (l1 l2 : list A) (order : list nat) (a b : A) :
  length l1 = length l2 ->
  head (omap (fun j => l1 !! j) order) = Some a ->
  head (omap (fun j => l2 !! j) order) = Some b ->
  exists k, l1 !! k = Some a /\ l2 !! k = Some b.
Proof.
  intros Hlen. induction order as [|o order IH]; simpl; [discriminate|].
  destruct (l1 !! o) as [x|] eqn:H1; destruct (l2 !! o) as [y|] eqn:H2; simpl.
  - intros [= <-] [= <-]. eauto.
  - apply lookup_lt_Some in H1. apply lookup_ge_None in H2. lia.
  - apply lookup_lt_Some in H2. apply lookup_ge_None in H1. lia.
  - exact IH.
Qed.

Section RankFacts.
Context {svc : Services}.

Lemma distances_cosine (q : vec) (embs : list vec) :
  distances_from_embeddings q embs (str "cosine") = mapM (cosine q) embs.
Proof.
  unfold distances_from_embeddings. apply mapM_ext. intros e.
  unfold distance_metrics. reflexivity.
Qed.

(** A row whose key is strictly below every other key is first in any
    order [sorted_positions] accepts. *)
Lemma sorted_positions_head (keys : list float) (order : list nat) (i : nat) (k : float) :
  sorted_positions keys order = true ->
  keys !! i = Some k ->
  (forall j kj, j <> i -> keys !! j = Some kj -> PrimFloat.ltb k kj = true) ->
  exists rest, order = i :: rest.
Proof.
  unfold sorted_positions. intros Hsorted Hi Hmin.
  apply andb_prop in Hsorted. destruct Hsorted as [Hsorted Hinv].
  apply andb_prop in Hsorted. destruct Hsorted as [Hlen Hall].
  apply Nat.eqb_eq in Hlen.
  rewrite forallb_forall in Hall. rewrite forallb_forall in Hinv.
  assert (Hin : In i order).
  { specialize (Hall i). rewrite in_seq in Hall.
    apply lookup_lt_Some in Hi.
    specialize (Hall ltac:(lia)). apply existsb_exists in Hall.
    destruct Hall as (x & Hx & Hxi). apply Nat.eqb_eq in Hxi. now subst. }
  destruct order as [|o rest]; [destruct Hin|].
  destruct (decide (o = i)) as [->|Hne]; [eauto|exfalso].
  destruct Hin as [Ho|Hin]; [congruence|].
  apply list_elem_of_In, list_elem_of_lookup in Hin. destruct Hin as [b Hb].
  specialize (Hinv (S b)). rewrite in_seq in Hinv.
  pose proof (lookup_lt_Some _ _ _ Hb) as Hblt. cbn [length] in Hinv.
  specialize (Hinv ltac:(lia)). rewrite forallb_forall in Hinv.
  specialize (Hinv 0%nat). rewrite in_seq in Hinv. specialize (Hinv ltac:(lia)).
  change ((o :: rest) !! 0%nat) with (Some o) in Hinv.
  change ((o :: rest) !! S b) with (rest !! b) in Hinv.
  rewrite Hb in Hinv.
  destruct (keys !! o) as [ko|] eqn:Hko; [|discriminate].
  rewrite Hi in Hinv.
  rewrite (Hmin o ko Hne Hko) in Hinv. discriminate.
Qed.

End RankFacts.

(** ** The preprocessor's properties *)

Section PreprocessorTheorems.
Context {P : DateParser}.

Lemma carry_forward_line (seen rest : list pystr) (line d : pystr) :
  fst (is_date line) = false ->
  most_recent_date seen = Some d ->
  carry_forward (seen ++ line :: rest) !! length seen = Some (d ++ SEP ++ line).
Proof.
  intros Hline Hseen.
  rewrite carry_forward_scan, scan_app, map_app.
  rewrite lookup_app_r by (rewrite length_map, scan_length; lia).
  rewrite length_map, scan_length, Nat.sub_diag.
  rewrite date_after_most_recent, Hseen. simpl.
  destruct (is_date_cases line) as [E|E]; rewrite E in *; simpl in *;
    [discriminate|reflexivity].
Qed.

Lemma is_date_dated (s d : pystr) :
  strip (hd [] (split EN_DASH s)) = d -> parses d = true ->
  is_date s = (true, Some d).
Proof. intros Hs Hd. rewrite is_date_parses, Hs, Hd. reflexivity. Qed.

Lemma is_date_undated (s d : pystr) :
  strip (hd [] (split EN_DASH s)) = d -> parses d = false ->
  is_date s = (false, None).
Proof. intros Hs Hd. rewrite is_date_parses, Hs, Hd. reflexivity. Qed.

End PreprocessorTheorems.

(** C3. Date carry-forward. Scanning the lines in order, a line that does
    not parse as dated comes out prefixed with the most recently parsed
    date and the separator [" - "] (with the en dash); and when the parser
    accepts the two dates and rejects [B], [C] and [E], the five lines
    [2023-01-01 - A], [B], [C], [2023-02-01 - D], [E] give the five
    fragments of the spec. *)
Theorem date_carry_forward (P : DateParser) :
  (forall (seen rest : list pystr) (line d : pystr),
      fst (is_date line) = false ->
      most_recent_date seen = Some d ->
      carry_forward (seen ++ line :: rest) !! length seen
      = Some (d ++ SEP ++ line))
  /\ (parses (str "2023-01-01") = true ->
      parses (str "2023-02-01") = true ->
      parses (str "B") = false ->
      parses (str "C") = false ->
      parses (str "E") = false ->
      date_qualify
        [str "2023-01-01" ++ SEP ++ str "A"; str "B"; str "C";
         str "2023-02-01" ++ SEP ++ str "D"; str "E"]
      = [str "2023-01-01" ++ SEP ++ str "A";
         str "2023-01-01" ++ SEP ++ str "B";
         str "2023-01-01" ++ SEP ++ str "C";
         str "2023-02-01" ++ SEP ++ str "D";
         str "2023-02-01" ++ SEP ++ str "E"]).
Proof.
  split.
  - intros seen rest line d. apply carry_forward_line.
  - intros H1 H2 HB HC HE.
    unfold date_qualify. rewrite carry_forward_scan.
    cbn [scan].
    rewrite (is_date_dated _ (str "2023-01-01")) by (reflexivity || assumption).
    cbn [negb].
    rewrite (is_date_undated (str "B") (str "B")) by (reflexivity || assumption).
    cbn [negb].
    rewrite (is_date_undated (str "C") (str "C")) by (reflexivity || assumption).
    cbn [negb].
    rewrite (is_date_dated _ (str "2023-02-01")) by (reflexivity || assumption).
    cbn [negb].
    rewrite (is_date_undated (str "E") (str "E")) by (reflexivity || assumption).
    reflexivity.
Qed.

(** The run of C3 on the stub parser. *)
Lemma date_carry_forward_witness :
  @date_qualify stub_parser
    [str "2023-01-01" ++ SEP ++ str "A"; str "B"; str "C";
     str "2023-02-01" ++ SEP ++ str "D"; str "E"]
  = [str "2023-01-01" ++ SEP ++ str "A";
     str "2023-01-01" ++ SEP ++ str "B";
     str "2023-01-01" ++ SEP ++ str "C";
     str "2023-02-01" ++ SEP ++ str "D";
     str "2023-02-01" ++ SEP ++ str "E"].
Proof.
  apply (proj2 (date_carry_forward stub_parser)); reflexivity.
Defined.




(** ** The context assembler's properties *)

(** The loop adds up the token counts of the texts, each counted by
    itself, and never the strings they are joined with: two texts that fit
    by that count are both accepted, and when their joined block costs
    enough, the prompt is at the budget or beyond it. *)
Lemma joiners_uncounted
    (svc : Services) (question t1 t2 : pystr) (max_token_count : Z) :
  let base := (count_tokens prompt_template + count_tokens question)%Z in
  (base + count_tokens t1 + count_tokens t2 < max_token_count)%Z ->
  (max_token_count <= base + count_tokens (t1 ++ JOINER ++ t2))%Z ->
  select_context question [t1; t2] max_token_count = [t1; t2]
  /\ (max_token_count
      <= prompt_token_count question
           (select_context question [t1; t2] max_token_count))%Z.
Proof.
  intros base Hfit Hjoin.
  assert (Hsel : select_context question [t1; t2] max_token_count = [t1; t2]).
  { unfold select_context.
    fold (count_tokens prompt_template). fold (count_tokens question). fold base.
    pose proof (count_tokens_nonneg t2).
    rewrite !pack_cons.
    destruct (Z.ltb_spec (base + count_tokens t1) max_token_count); [|lia].
    destruct (Z.ltb_spec (base + count_tokens t1 + count_tokens t2) max_token_count);
      [reflexivity|lia]. }
  split; [exact Hsel|]. rewrite Hsel. unfold prompt_token_count. exact Hjoin.
Qed.

(** C1. The budget is missed where the joined context block costs more
    than its texts. With one token per code point, the question [q], the
    two rows [ab] and [cd] and [max_token_count = 175]: template and
    question take 170 tokens, the loop accepts both texts
    (170 + 2 + 2 < 175), and the block [ab], rule, [cd] is 11 tokens long.
    Template, question and joined context add up to 181, and the prompt
    that [create_prompt] returns is itself 177 tokens long: both are beyond
    175. *)
Theorem joiners_exceed_budget :
  let context :=
    select_context (svc := Stub.services) (str "q") [str "ab"; str "cd"] 175 in
  let prompt :=
    template_head ++ join JOINER [str "ab"; str "cd"] ++ template_mid
      ++ str "q" ++ template_tail in
  List.map (fun r : RankedRow => text r)
    (match get_rows_by_relevance (svc := Stub.services) (str "q") Stub.frame_pair with
     | Ok ranked => ranked
     | Raise _ => []
     end)
  = [str "ab"; str "cd"]
  /\ context = [str "ab"; str "cd"]
  /\ create_prompt (svc := Stub.services) (str "q") Stub.frame_pair 175 = Ok prompt
  /\ (count_tokens (svc := Stub.services) prompt_template
      + count_tokens (svc := Stub.services) (str "q")
      + tokens_of (svc := Stub.services) context = 174)%Z
  /\ prompt_token_count (svc := Stub.services) (str "q") context = 181%Z
  /\ count_tokens (svc := Stub.services) prompt = 177%Z.
Proof. vm_compute. repeat split. Qed.

(** C2. First fit, then stop. The ranked texts are taken in order; if the
    texts [pre] all fit and the next text [t] takes the running count to
    [max_token_count] or beyond, the context is exactly [pre], whatever
    follows [t]. In particular, for four ranked texts of 5, 3, 100 and 2
    tokens and a budget that admits the first two but not the first three,
    the context is the first two texts: the fourth is left out. *)
Theorem first_overflow_stops
    (svc : Services) (question : pystr) (df : list Row) (max_token_count : Z)
    (ranked : list RankedRow) :
  get_rows_by_relevance question df = Ok ranked ->
  let texts := List.map (fun r : RankedRow => text r) ranked in
  let base := (count_tokens prompt_template + count_tokens question)%Z in
  (forall (pre : list pystr) (t : pystr) (post : list pystr),
      texts = pre ++ t :: post ->
      (pre <> [] -> (base + tokens_of pre < max_token_count)%Z) ->
      (max_token_count <= base + tokens_of pre + count_tokens t)%Z ->
      select_context question texts max_token_count = pre
      /\ create_prompt question df max_token_count
         = format prompt_template [join JOINER pre; question])
  /\ (forall t1 t2 t3 t4 : pystr,
      texts = [t1; t2; t3; t4] ->
      List.map count_tokens [t1; t2; t3; t4] = [5; 3; 100; 2]%Z ->
      (base + 5 + 3 < max_token_count)%Z ->
      (max_token_count <= base + 5 + 3 + 100)%Z ->
      select_context question texts max_token_count = [t1; t2]
      /\ create_prompt question df max_token_count
         = format prompt_template [join JOINER [t1; t2]; question]).
Proof.
  intros Hranked texts base.
  assert (Hgen : forall pre t post,
      texts = pre ++ t :: post ->
      (pre <> [] -> (base + tokens_of pre < max_token_count)%Z) ->
      (max_token_count <= base + tokens_of pre + count_tokens t)%Z ->
      select_context question texts max_token_count = pre
      /\ create_prompt question df max_token_count
         = format prompt_template [join JOINER pre; question]).
  { intros pre t post Htexts Hfit Hover.
    assert (Hsel : select_context question texts max_token_count = pre).
    { unfold select_context. rewrite Htexts. now apply pack_stops. }
    split; [exact Hsel|].
    rewrite create_prompt_select, Hranked. fold texts. now rewrite Hsel. }
  split; [exact Hgen|].
  intros t1 t2 t3 t4 Htexts Hcosts Hfit Hover.
  injection Hcosts as H1 H2 H3 H4.
  apply (Hgen [t1; t2] t3 [t4] Htexts); simpl; lia.
Qed.

(** The run of C2 on the stubs: the frame ranks as texts of 5, 3, 100 and 2
    tokens, template and question take 170, and the budget is 200. *)
Lemma first_overflow_stops_witness :
  get_rows_by_relevance (svc := Stub.services) (str "q") Stub.frame_costs
  = Ok Stub.ranked_costs
  /\ List.map (fun r : RankedRow => text r) Stub.ranked_costs
     = [str "aaaaa"; str "bbb"; repeat 99%N 100; str "dd"]
  /\ select_context (svc := Stub.services) (str "q")
       (List.map (fun r : RankedRow => text r) Stub.ranked_costs) 200
     = [str "aaaaa"; str "bbb"]
  /\ create_prompt (svc := Stub.services) (str "q") Stub.frame_costs 200
     = format prompt_template [join JOINER [str "aaaaa"; str "bbb"]; str "q"].
Proof.
  assert (Hranked : get_rows_by_relevance (svc := Stub.services) (str "q") Stub.frame_costs
                    = Ok Stub.ranked_costs) by (vm_compute; reflexivity).
  split; [exact Hranked|]. split; [vm_compute; reflexivity|].
  apply (proj2 (first_overflow_stops Stub.services (str "q") Stub.frame_costs 200
                  Stub.ranked_costs Hranked)
               (str "aaaaa") (str "bbb") (repeat 99%N 100) (str "dd"));
    vm_compute; first [reflexivity | discriminate].
Defined.

(** ** The ranker's properties *)

(** C6, as the spec states it, fails. The stub embeds the question as
    [(1, 0)]; the first row of [Stub.frame_zero] stores [(1, 1)], the
    second the zero vector. The division is performed. With the metric
    that ends in [max(0, min(d, 2.0))] the zero vector comes out at
    distance 0, below the distance of the first row, and is ranked first;
    with the formula alone its distance is NaN, which is larger than no
    distance. *)
Lemma zero_vector_not_maximal :
  exists regular : float,
    PrimFloat.ltb 0 regular = true
    /\ distances_from_embeddings (svc := Stub.services_clamped)
         [1%float; 0%float] (List.map embeddings Stub.frame_zero) (str "cosine")
       = Ok [regular; 0%float]
    /\ get_rows_by_relevance (svc := Stub.services_clamped) (str "q") Stub.frame_zero
       = Ok [ {| row := {| text := str "zero"; embeddings := [0%float; 0%float] |};
                 distances := 0%float |};
              {| row := {| text := str "regular"; embeddings := [1%float; 1%float] |};
                 distances := regular |} ]
    /\ exists d : float,
         distances_from_embeddings (svc := Stub.services)
           [1%float; 0%float] (List.map embeddings Stub.frame_zero) (str "cosine")
         = Ok [regular; d]
         /\ PrimFloat.is_nan d = true
         /\ PrimFloat.ltb regular d = false.
Proof.
  eexists. split; [|split; [vm_compute; reflexivity|]].
  - vm_compute. reflexivity.
  - split; [vm_compute; reflexivity|].
    eexists. split; [vm_compute; reflexivity|]. split; vm_compute; reflexivity.
Qed.

(** No guard stands between the pairs and the metric. *)
Lemma distances_unguarded (svc : Services) (q : vec) (embs : list vec) :
  match distances_from_embeddings q embs (str "cosine") with
  | Ok ds => Forall2 (fun e d => cosine q e = Ok d) embs ds
  | Raise e => exists emb, In emb embs /\ cosine q emb = Raise e
  end.
Proof.
  rewrite distances_cosine.
  induction embs as [|emb embs IH]; simpl; [constructor|].
  destruct (cosine q emb) as [d|e] eqn:Hd; simpl; [|eauto].
  destruct (mapM (cosine q) embs) as [ds|e]; simpl.
  - now constructor.
  - destruct IH as (emb' & Hin & Hraise). eauto.
Qed.

(** A metric that returns the value of a formula for vectors of one
    length returns it for every embedding of the query's length. *)
Lemma distances_same_length (svc : Services) (formula : vec -> vec -> float)
    (q : vec) (embs : list vec) :
  (forall u v, length u = length v -> cosine u v = Ok (formula u v)) ->
  Forall (fun e => length e = length q) embs ->
  distances_from_embeddings q embs (str "cosine")
  = Ok (List.map (formula q) embs).
Proof.
  intros Hmetric Hlen. rewrite distances_cosine.
  induction Hlen as [|e embs He _ IH]; simpl; [reflexivity|].
  rewrite (Hmetric q e) by congruence. simpl. now rewrite IH.
Qed.

(** C6, amended. The cosine distances are computed by handing every pair,
    a pair with a zero vector included, to the library's metric, with no
    guard: the computation raises only an exception that the metric raises
    for one of the pairs, and otherwise the distance of each pair is the
    value the metric returns for it. With the library's formula
    [1 - u.v / sqrt(u.u * v.v)] in binary64 arithmetic, clamped to [0, 2]
    or not, nothing is raised for embeddings of the query's dimension,
    zero vectors included, and each distance is the value of the formula,
    with its division performed. *)
Theorem zero_vector_unguarded (q : vec) (embs : list vec) :
  (forall svc : Services,
     match distances_from_embeddings q embs (str "cosine") with
     | Ok ds => Forall2 (fun e d => cosine q e = Ok d) embs ds
     | Raise e => exists emb, In emb embs /\ cosine q emb = Raise e
     end)
  /\ (Forall (fun e => length e = length q) embs ->
      distances_from_embeddings (svc := Stub.services) q embs (str "cosine")
      = Ok (List.map (Stub.cosine_formula q) embs)
      /\ distances_from_embeddings (svc := Stub.services_clamped) q embs (str "cosine")
         = Ok (List.map (fun e => Stub.clamp (Stub.cosine_formula q e)) embs)).
Proof.
  split; [intros svc; apply distances_unguarded|].
  intros Hlen. split.
  - apply (distances_same_length Stub.services Stub.cosine_formula); [|exact Hlen].
    intros u v Huv. cbn [cosine Stub.services]. unfold Stub.cosine, Stub.same_shape.
    apply Nat.eqb_eq in Huv. now rewrite Huv.
  - apply (distances_same_length Stub.services_clamped
             (fun u v => Stub.clamp (Stub.cosine_formula u v))); [|exact Hlen].
    intros u v Huv. cbn [cosine Stub.services_clamped].
    unfold Stub.cosine_clamped, Stub.same_shape.
    apply Nat.eqb_eq in Huv. now rewrite Huv.
Qed.

(** The run of C6 on the vectors of [Stub.frame_zero]: nothing is raised;
    clamped, the zero vector is at distance 0, and by the formula alone at
    NaN. *)
Lemma zero_vector_unguarded_witness :
  exists regular d : float,
    distances_from_embeddings (svc := Stub.services_clamped) [1%float; 0%float]
      [[1%float; 1%float]; [0%float; 0%float]] (str "cosine")
    = Ok [regular; 0%float]
    /\ distances_from_embeddings (svc := Stub.services) [1%float; 0%float]
         [[1%float; 1%float]; [0%float; 0%float]] (str "cosine")
       = Ok [regular; d]
    /\ PrimFloat.is_nan d = true.
Proof.
  destruct (proj2 (zero_vector_unguarded [1%float; 0%float]
                     [[1%float; 1%float]; [0%float; 0%float]])
                  ltac:(repeat constructor)) as [Hformula Hclamped].
  eexists _, _. split; [exact Hclamped|]. split; [exact Hformula|].
  vm_compute. reflexivity.
Defined.

(** C8, as the spec states it, fails. The stub embeds the question as
    [(1, 0)]; in [Stub.frame_parallel] only the second row stores that
    vector, the first stores [(2, 0)], which points the same way. Both
    cosine distances are 0 and the identical row is ranked second.

    Nor is the distance of the identical row always 0. The service of
    [Stub.services_large] embeds the question as [(2^333, 0)], and the
    first row of [Stub.frame_large] stores that very vector: in
    [1 - u.u / sqrt(u.u * u.u)] the product under the root is beyond the
    largest binary64 value, the quotient is 0 and the distance is 1. The
    second row stores [(1, 0)], is at distance 0 and is ranked first. *)
Lemma identical_embedding_ranked_second :
  (get_embedding (svc := Stub.services) (str "q") EMBEDDING_MODEL_NAME
   = Ok [1%float; 0%float]
   /\ List.map embeddings Stub.frame_parallel
      = [[2%float; 0%float]; [1%float; 0%float]]
   /\ get_rows_by_relevance (svc := Stub.services) (str "q") Stub.frame_parallel
      = Ok [ {| row := {| text := str "parallel"; embeddings := [2%float; 0%float] |};
                distances := 0%float |};
             {| row := {| text := str "identical"; embeddings := [1%float; 0%float] |};
                distances := 0%float |} ])
  /\ (get_embedding (svc := Stub.services_large) (str "q") EMBEDDING_MODEL_NAME
      = Ok Stub.large
      /\ List.map embeddings Stub.frame_large = [Stub.large; [1%float; 0%float]]
      /\ get_rows_by_relevance (svc := Stub.services_large) (str "q") Stub.frame_large
         = Ok [ {| row := {| text := str "parallel"; embeddings := [1%float; 0%float] |};
                   distances := 0%float |};
                {| row := {| text := str "identical"; embeddings := Stub.large |};
                   distances := 1%float |} ]).
Proof. vm_compute. repeat split. Qed.

(** The tie does not depend on how [sort_values] breaks it: the order is
    computed from the keys alone, so whatever it is, the identical row is
    not first in both the frame and the frame with its two rows swapped. *)
Lemma tie_broken_by_position (svc : Services) (question : pystr) (d1 d2 : float)
    (rest1 rest2 : list RankedRow) :
  let identical := {| text := str "identical"; embeddings := [1%float; 0%float] |} in
  let parallel := {| text := str "parallel"; embeddings := [2%float; 0%float] |} in
  get_embedding question EMBEDDING_MODEL_NAME = Ok [1%float; 0%float] ->
  cosine [1%float; 0%float] [1%float; 0%float] = Ok 0%float ->
  cosine [1%float; 0%float] [2%float; 0%float] = Ok 0%float ->
  get_rows_by_relevance question [parallel; identical]
  = Ok ({| row := identical; distances := d1 |} :: rest1) ->
  get_rows_by_relevance question [identical; parallel]
  = Ok ({| row := identical; distances := d2 |} :: rest2) ->
  False.
Proof.
  intros identical parallel Hq Hsame Hpar.
  unfold get_rows_by_relevance. rewrite Hq. simpl bind.
  rewrite !distances_cosine. simpl mapM. rewrite Hsame, Hpar. simpl.
  unfold sort_values. simpl List.map.
  intros [= H1] [= H2].
  destruct (omap_lookup_same_position
              [ {| row := parallel; distances := 0%float |};
                {| row := identical; distances := 0%float |} ]
              [ {| row := identical; distances := 0%float |};
                {| row := parallel; distances := 0%float |} ]
              (argsort [0%float; 0%float])
              {| row := identical; distances := d1 |}
              {| row := identical; distances := d2 |} eq_refl)
    as (k & Hk1 & Hk2).
  - now rewrite H1.
  - now rewrite H2.
  - destruct k as [|[|k]]; simpl in Hk1, Hk2; discriminate.
Qed.

(** C8, amended. If the query vector is identical to a stored embedding,
    the metric gives the query distance 0 from itself, every other stored
    embedding is at a strictly positive cosine distance from the query,
    and [sort_values] returns the rows in ascending order of their
    distances (every row once, none after a row of strictly larger
    distance), then that fragment is ranked first, with distance 0. *)
Theorem identical_embedding_ranks_first
    (svc : Services) (question : pystr) (df : list Row) (q : vec) (i : nat) (r : Row) :
  get_embedding question EMBEDDING_MODEL_NAME = Ok q ->
  df !! i = Some r ->
  embeddings r = q ->
  cosine q q = Ok 0%float ->
  (forall j r', j <> i -> df !! j = Some r' ->
     exists d, cosine q (embeddings r') = Ok d /\ PrimFloat.ltb 0 d = true) ->
  (forall keys,
     distances_from_embeddings q (List.map embeddings df) (str "cosine") = Ok keys ->
     sorted_positions keys (argsort keys) = true) ->
  exists rest,
    get_rows_by_relevance question df
    = Ok ({| row := r; distances := 0%float |} :: rest).
Proof.
  intros Hq Hi Hr H0 Hpos Hsort.
  unfold get_rows_by_relevance. rewrite Hq. simpl bind.
  destruct (mapM_total (cosine q) (List.map embeddings df)) as [keys Hkeys].
  { intros j e He. rewrite lookup_map in He.
    destruct (df !! j) as [r'|] eqn:Hj; [|discriminate].
    simpl in He. injection He as <-.
    destruct (decide (j = i)) as [->|Hne].
    - rewrite Hi in Hj. injection Hj as <-. rewrite Hr. eauto.
    - destruct (Hpos j r' Hne Hj) as (d & Hd & _). eauto. }
  rewrite <- distances_cosine in Hkeys.
  specialize (Hsort keys Hkeys). rewrite Hkeys. simpl bind.
  rewrite distances_cosine in Hkeys. apply mapM_Ok in Hkeys.
  destruct Hkeys as [Hlen Hall]. rewrite length_map in Hlen.
  unfold sort_values. rewrite distances_zip by exact Hlen.
  assert (Hki : keys !! i = Some 0%float).
  { destruct (Hall i q) as (b & Hb & Hc).
    { rewrite lookup_map, Hi. simpl. now rewrite Hr. }
    rewrite H0 in Hc. injection Hc as <-. exact Hb. }
  destruct (sorted_positions_head keys (argsort keys) i 0%float Hsort Hki)
    as [rest Hrest].
  { intros j kj Hne Hkj.
    destruct (lookup_lt_is_Some_2 df j) as [r' Hj].
    { apply lookup_lt_Some in Hkj. lia. }
    destruct (Hpos j r' Hne Hj) as (d & Hd & Hlt).
    destruct (Hall j (embeddings r')) as (b & Hb & Hc).
    { rewrite lookup_map, Hj. reflexivity. }
    rewrite Hd in Hc. injection Hc as <-.
    rewrite Hkj in Hb. injection Hb as <-. exact Hlt. }
  rewrite Hrest.
  destruct (omap_lookup_head
              (zip_with (fun r d => {| row := r; distances := d |}) df keys)
              i rest {| row := r; distances := 0%float |}) as [rest' Hrest'].
  { apply lookup_zip_with_Some. exists r, 0%float. auto. }
  exists rest'. now rewrite Hrest'.
Qed.

(** The run of C8 on the stubs: the first row of [Stub.frame_pair] stores
    the query vector, the second is at distance 0.29. *)
Lemma identical_embedding_ranks_first_witness :
  exists rest,
    get_rows_by_relevance (svc := Stub.services) (str "q") Stub.frame_pair
    = Ok ({| row := {| text := str "ab"; embeddings := [1%float; 0%float] |};
             distances := 0%float |} :: rest).
Proof.
  apply (identical_embedding_ranks_first Stub.services (str "q") Stub.frame_pair
           [1%float; 0%float] 0).
  - reflexivity.
  - reflexivity.
  - reflexivity.
  - vm_compute. reflexivity.
  - intros [|[|j]] r' Hne Hj; [congruence| |discriminate].
    injection Hj as <-. eexists. split; vm_compute; reflexivity.
  - intros keys Hkeys. vm_compute in Hkeys. injection Hkeys as <-.
    vm_compute. reflexivity.
Defined.

(** ** The properties of [answer_question] *)

(** C9. When the completion call raises an exception, [answer_question]
    does not raise: it returns the empty answer with the prompt it had
    built, and it has printed the exception. *)
Theorem completion_failure_swallowed
    (svc : Services) (question : pystr) (df : list Row)
    (max_prompt_tokens max_answer_tokens : Z) (out : stdout)
    (prompt : pystr) (e : exn) :
  create_prompt question df max_prompt_tokens = Ok prompt ->
  completions_create COMPLETION_MODEL_NAME prompt max_answer_tokens = Raise e ->
  isinstance_Exception e = true ->
  answer_question question df max_prompt_tokens max_answer_tokens out
  = (Ok ([], prompt), out ++ [str_of e]).
Proof.
  intros Hprompt Hraise Hexc.
  unfold answer_question, complete. rewrite Hprompt, Hraise.
  cbv [bind]. now rewrite Hexc.
Qed.

(** The run of C9 on the stubs, whose completion service refuses
    [max_tokens = 0]. *)
Lemma completion_failure_swallowed_witness :
  answer_question (svc := Stub.services) (str "q") Stub.frame_pair 1500 0 []
  = (Ok ([], template_head ++ join JOINER [str "ab"; str "cd"] ++ template_mid
              ++ str "q" ++ template_tail),
     [str "max_tokens must be positive"]).
Proof.
  apply (completion_failure_swallowed Stub.services (str "q") Stub.frame_pair 1500 0 []
           _ (PyException (str "BadRequestError") (str "max_tokens must be positive")));
    vm_compute; reflexivity.
Defined.

(** C10. Once [create_prompt] has produced the prompt, the pair
    [answer_question] returns has that prompt as its second component: with
    the completion's text when the call succeeds, with the empty answer
    when it raises an exception; and no returned pair holds another
    prompt. *)
Theorem answer_returns_prompt
    (svc : Services) (question : pystr) (df : list Row)
    (max_prompt_tokens max_answer_tokens : Z) (out : stdout) (prompt : pystr) :
  create_prompt question df max_prompt_tokens = Ok prompt ->
  (forall answer,
      complete prompt max_answer_tokens = Ok answer ->
      fst (answer_question question df max_prompt_tokens max_answer_tokens out)
      = Ok (answer, prompt))
  /\ (forall e,
      complete prompt max_answer_tokens = Raise e ->
      isinstance_Exception e = true ->
      fst (answer_question question df max_prompt_tokens max_answer_tokens out)
      = Ok ([], prompt))
  /\ (forall answer prompt',
      fst (answer_question question df max_prompt_tokens max_answer_tokens out)
      = Ok (answer, prompt') ->
      prompt' = prompt).
Proof.
  intros Hprompt. unfold answer_question. rewrite Hprompt.
  repeat split.
  - intros answer Hok. now rewrite Hok.
  - intros e Hraise Hexc. now rewrite Hraise, Hexc.
  - intros answer prompt'.
    destruct (complete prompt max_answer_tokens) as [a|e]; simpl.
    + now intros [= _ <-].
    + destruct (isinstance_Exception e); simpl; [now intros [= _ <-]|discriminate].
Qed.

(** The run of C10 on the stubs, with the default limits. *)
Lemma answer_returns_prompt_witness :
  fst (answer_question_default (svc := Stub.services) (str "q") Stub.frame_pair [])
  = Ok (str "stub answer",
        template_head ++ join JOINER [str "ab"; str "cd"] ++ template_mid
          ++ str "q" ++ template_tail).
Proof.
  apply (proj1 (answer_returns_prompt Stub.services (str "q") Stub.frame_pair
                  1500 500 [] _ ltac:(vm_compute; reflexivity)));
    vm_compute; reflexivity.
Defined.

(** * Further properties *)

(** ** String helpers *)

Lemma split_parts (sep : N) (s : pystr) :
  Forall (fun p => contains sep p = false) (split sep s).
Proof.
  induction s as [|c s IH]; simpl.
  - repeat constructor.
  - destruct (N.eqb_spec c sep) as [->|Hne].
    + constructor; [reflexivity|exact IH].
    + destruct (split sep s) as [|p ps]; simpl.
      * repeat constructor. simpl. apply N.eqb_neq in Hne. now rewrite Hne.
      * inversion IH as [|? ? Hp Hps]; subst. constructor; [|exact Hps].
        simpl. apply N.eqb_neq in Hne. now rewrite Hne.
Qed.

Lemma split_dashless (sep : N) (a : pystr) :
  contains sep a = false -> split sep a = [a].
Proof.
  induction a as [|c a IH]; simpl; [reflexivity|].
  destruct (N.eqb_spec c sep) as [->|Hne]; simpl; [discriminate|].
  intros Ha. now rewrite (IH Ha).
Qed.

Lemma split_hd_app (sep : N) (a b : pystr) :
  contains sep a = false -> hd [] (split sep (a ++ sep :: b)) = a.
Proof.
  induction a as [|c a IH]; simpl.
  - now rewrite N.eqb_refl.
  - destruct (N.eqb_spec c sep) as [->|Hne]; simpl; [discriminate|].
    intros Ha. specialize (IH Ha).
    destruct (split sep (a ++ sep :: b)) as [|p ps]; simpl in *; now subst.
Qed.

Lemma split_hd_dashless (sep : N) (s : pystr) :
  contains sep (hd [] (split sep s)) = false.
Proof.
  pose proof (split_parts sep s) as H.
  destruct (split sep s) as [|p ps]; simpl; [reflexivity|].
  now inversion H.
Qed.

Lemma lstrip_suffix (s : pystr) :
  exists blanks, s = blanks ++ lstrip s /\ forallb isspace blanks = true.
Proof.
  induction s as [|c s IH]; simpl.
  - now exists [].
  - destruct (isspace c) eqn:Hc.
    + destruct IH as (w & Hs & Hw). exists (c :: w). simpl.
      rewrite Hc, Hw. split; [now f_equal|reflexivity].
    + now exists [].
Qed.

Lemma lstrip_hd_nonspace (s : pystr) : hd_nonspace (lstrip s).
Proof.
  induction s as [|c s IH]; simpl; [exact I|].
  destruct (isspace c) eqn:Hc; [exact IH|exact Hc].
Qed.

Lemma lstrip_fixed (s : pystr) : hd_nonspace s -> lstrip s = s.
Proof. destruct s as [|c s]; simpl; [reflexivity|]. now intros ->. Qed.

Lemma lstrip_dashless (s : pystr) :
  contains EN_DASH s = false -> contains EN_DASH (lstrip s) = false.
Proof.
  destruct (lstrip_suffix s) as (w & Hs & _). intros H.
  rewrite Hs, contains_app in H. now apply orb_false_elim in H.
Qed.

Lemma contains_rev (sep : N) (s : pystr) : contains sep (rev s) = contains sep s.
Proof.
  unfold contains. induction s as [|c s IH]; simpl; [reflexivity|].
  rewrite existsb_app, IH. simpl. rewrite orb_false_r. apply orb_comm.
Qed.

Lemma strip_dashless (s : pystr) :
  contains EN_DASH s = false -> contains EN_DASH (strip s) = false.
Proof.
  intros H. unfold strip. rewrite contains_rev. apply lstrip_dashless.
  rewrite contains_rev. now apply lstrip_dashless.
Qed.

(** A stripped string has no blank at either end. *)
Lemma strip_ends (s : pystr) :
  hd_nonspace (strip s) /\ hd_nonspace (rev (strip s)).
Proof.
  unfold strip. rewrite rev_involutive. split; [|apply lstrip_hd_nonspace].
  pose proof (lstrip_hd_nonspace s) as Hy.
  destruct (lstrip_suffix (rev (lstrip s))) as (w & Hrev & _).
  set (z := lstrip (rev (lstrip s))) in *.
  assert (Hy' : lstrip s = rev z ++ rev w).
  { rewrite <- (rev_involutive (lstrip s)), Hrev. apply rev_app_distr. }
  rewrite Hy' in Hy. destruct (rev z) as [|c r]; simpl in *; [exact I|exact Hy].
Qed.

Lemma strip_fixed (s : pystr) :
  hd_nonspace s -> hd_nonspace (rev s) -> strip s = s.
Proof.
  intros H1 H2. unfold strip.
  rewrite (lstrip_fixed s H1), (lstrip_fixed (rev s) H2). apply rev_involutive.
Qed.

Lemma strip_idempotent (s : pystr) : strip (strip s) = strip s.
Proof. destruct (strip_ends s). now apply strip_fixed. Qed.

(** A blank appended to a stripped string is stripped away again. *)
Lemma strip_app_blank (s : pystr) : strip (strip s ++ [32%N]) = strip s.
Proof.
  destruct (strip_ends s) as [H1 H2]. set (d := strip s) in *.
  destruct d as [|c d'] eqn:Hd; [reflexivity|].
  unfold strip.
  rewrite (lstrip_fixed ((c :: d') ++ [32%N])) by exact H1.
  replace (rev ((c :: d') ++ [32%N])) with (32%N :: rev (c :: d'))
    by now rewrite rev_app_distr.
  change (lstrip (32%N :: rev (c :: d'))) with (lstrip (rev (c :: d'))).
  rewrite (lstrip_fixed _ H2). apply rev_involutive.
Qed.

(** ** The preprocessor *)

Lemma filter_sublist {A} (f : A -> bool) (l : list A) : List.filter f l `sublist_of` l.
Proof.
  induction l as [|a l IH]; simpl; [constructor|].
  destruct (f a); now constructor.
Qed.

Lemma filter_fixed {A} (f : A -> bool) (l : list A) :
  List.filter f (List.filter f l) = List.filter f l.
Proof.
  induction l as [|a l IH]; simpl; [reflexivity|].
  destruct (f a) eqn:Hfa; simpl; [rewrite Hfa; now f_equal|exact IH].
Qed.

(** X1. The text column made from the page has no empty line, no section
    line and no line break inside a line. *)
Theorem text_column_lines (extract : pystr) :
  Forall (fun line => line <> []
                      /\ startswith (str "==") line = false
                      /\ contains NL line = false)
         (text_column extract).
Proof.
  apply List.Forall_forall. intros line Hin.
  unfold text_column, clean in Hin. apply filter_In in Hin.
  destruct Hin as [Hsplit Hkeep]. apply andb_prop in Hkeep.
  destruct Hkeep as [Hlen Hsec].
  split; [|split].
  - intros ->. discriminate.
  - now apply negb_true_iff in Hsec.
  - pose proof (split_parts NL extract) as Hparts.
    rewrite List.Forall_forall in Hparts. now apply Hparts.
Qed.

Section PreprocessorMore.
Context {P : DateParser}.

(** X2. [is_date] reads a line only up to its first en dash. *)
Theorem is_date_reads_prefix (pre rest : pystr) :
  contains EN_DASH pre = false ->
  is_date (pre ++ EN_DASH :: rest) = is_date pre.
Proof.
  intros Hpre. unfold is_date.
  now rewrite (split_hd_app _ _ rest Hpre), (split_dashless _ _ Hpre).
Qed.

Lemma is_date_wellformed (s : pystr) :
  match is_date s with
  | (true, Some d) =>
      parses d = true /\ contains EN_DASH d = false /\ strip d = d
      /\ d = strip (hd [] (split EN_DASH s))
  | (false, None) => parses (strip (hd [] (split EN_DASH s))) = false
  | _ => False
  end.
Proof.
  rewrite is_date_parses.
  destruct (parses (strip (hd [] (split EN_DASH s)))) eqn:Hp; [|reflexivity].
  split; [exact Hp|]. split; [|split; [apply strip_idempotent|reflexivity]].
  apply strip_dashless, split_hd_dashless.
Qed.

(** X3. The date [is_date] hands back is accepted by the parser, holds no
    en dash and has no blank at either end; without a date it hands back
    [(False, None)], and that is when the parser rejects the stripped text
    before the first dash. *)
Theorem is_date_result (s : pystr) :
  match is_date s with
  | (true, Some d) =>
      parses d = true /\ contains EN_DASH d = false /\ strip d = d
      /\ d = strip (hd [] (split EN_DASH s))
  | (false, None) => parses (strip (hd [] (split EN_DASH s))) = false
  | _ => False
  end.
Proof. apply is_date_wellformed. Qed.

(** A carried line parses as dated, with the date it carries. *)
Lemma is_date_carried (line r d : pystr) :
  is_date line = (true, Some d) ->
  is_date (d ++ SEP ++ r) = (true, Some d).
Proof.
  intros Hline. pose proof (is_date_wellformed line) as Hres. rewrite Hline in Hres.
  destruct Hres as (Hp & Hdash & Hstrip & Hd).
  assert (Hblank : strip (d ++ [32%N]) = d).
  { rewrite <- Hstrip. apply strip_app_blank. }
  unfold is_date.
  change (d ++ SEP ++ r) with (d ++ [32%N] ++ EN_DASH :: 32%N :: r).
  rewrite app_assoc, split_hd_app.
  2:{ rewrite contains_app, Hdash. reflexivity. }
  rewrite Hblank.
  unfold parses in Hp. destruct (parse d); [reflexivity|discriminate].
Qed.

(** X4. The loop keeps the number of rows; it leaves a dated line and a
    line met before any date as they are, and puts the most recent date
    and the separator before every other line. *)
Theorem carry_forward_rows (df : list pystr) :
  length (carry_forward df) = length df
  /\ forall i line,
       df !! i = Some line ->
       carry_forward df !! i
       = Some (if fst (is_date line) then line
               else match most_recent_date (take i df) with
                    | Some d => d ++ SEP ++ line
                    | None => line
                    end).
Proof.
  rewrite carry_forward_scan. split.
  - now rewrite length_map, scan_length.
  - intros i line Hi.
    pose proof (lookup_lt_Some _ _ _ Hi) as Hlt.
    rewrite <- (take_drop_middle df i line Hi) at 1.
    rewrite scan_app, map_app.
    rewrite lookup_app_r by (rewrite length_map, scan_length, length_take; lia).
    rewrite length_map, scan_length, length_take.
    replace (i - i `min` length df) with 0 by lia.
    rewrite date_after_most_recent. simpl.
    destruct (is_date_cases line) as [E|E]; rewrite E; simpl; [reflexivity|].
    destruct (most_recent_date (take i df)); reflexivity.
Qed.

(** X5. When no line parses as dated the loop changes nothing, and the cell
    keeps exactly the lines that hold an en dash already. *)
Theorem undated_corpus (df : list pystr) :
  forallb (fun line => negb (fst (is_date line))) df = true ->
  carry_forward df = df
  /\ date_qualify df = List.filter (contains EN_DASH) df.
Proof.
  intros Hnone.
  assert (Hcf : carry_forward df = df).
  { rewrite carry_forward_scan.
    induction df as [|r df IH]; simpl in *; [reflexivity|].
    apply andb_prop in Hnone. destruct Hnone as [Hr Hdf].
    destruct (is_date_cases r) as [E|E]; rewrite E in *; simpl in *;
      [discriminate|].
    now rewrite IH. }
  split; [exact Hcf|]. unfold date_qualify, keep_dashed. now rewrite Hcf.
Qed.

End PreprocessorMore.

(** The run of X2 on the stub parser. *)
Lemma is_date_reads_prefix_witness :
  @is_date stub_parser (str "2023-01-01 " ++ EN_DASH :: str " A")
  = @is_date stub_parser (str "2023-01-01 ").
Proof. apply (@is_date_reads_prefix stub_parser). reflexivity. Defined.

(** The run of X5 on the stub parser. *)
Lemma undated_corpus_witness :
  @carry_forward stub_parser [str "Foo" ++ SEP ++ str "bar"; str "B"]
  = [str "Foo" ++ SEP ++ str "bar"; str "B"]
  /\ @date_qualify stub_parser [str "Foo" ++ SEP ++ str "bar"; str "B"]
     = List.filter (contains EN_DASH) [str "Foo" ++ SEP ++ str "bar"; str "B"].
Proof. apply (@undated_corpus stub_parser). reflexivity. Defined.

Section PreprocessorRerun.
Context {P : DateParser}.

Lemma scan_dated_row (cd : option pystr) (r d : pystr) (rows : list pystr) :
  is_date r = (true, Some d) ->
  scan cd (r :: rows)
  = {| fragment_text := r; date_tag := Some d |} :: scan (Some d) rows.
Proof. intros E. simpl. now rewrite E. Qed.

Lemma scan_carried_row (d r : pystr) (rows : list pystr) :
  is_date r = (false, None) ->
  scan (Some d) (r :: rows)
  = {| fragment_text := d ++ SEP ++ r; date_tag := Some d |} :: scan (Some d) rows.
Proof. intros E. simpl. now rewrite E. Qed.

Lemma scan_early_row (r : pystr) (rows : list pystr) :
  is_date r = (false, None) ->
  scan None (r :: rows)
  = {| fragment_text := r; date_tag := None |} :: scan None rows.
Proof. intros E. simpl. now rewrite E. Qed.

(** Once a date is in force, every line the cell keeps parses as dated. *)
Lemma kept_lines_dated (rows : list pystr) :
  forall line d,
    is_date line = (true, Some d) ->
    Forall (fun t => fst (is_date t) = true)
           (List.filter (contains EN_DASH)
                        (List.map fragment_text (scan (Some d) rows))).
Proof.
  induction rows as [|r rows IH]; intros line d Hd; [constructor|].
  destruct (is_date_cases r) as [E|E].
  - rewrite (scan_dated_row _ _ _ _ E).
    cbn [List.map List.filter fragment_text].
    destruct (contains EN_DASH r); [constructor|]; try now apply (IH r).
    now rewrite E.
  - rewrite (scan_carried_row _ _ _ E).
    cbn [List.map List.filter fragment_text].
    rewrite contains_SEP. constructor; [|now apply (IH line)].
    now rewrite (is_date_carried line r d Hd).
Qed.

(** Lines that all parse as dated pass the loop unchanged. *)
Lemma dated_lines_fixed (l : list pystr) :
  Forall (fun t => fst (is_date t) = true) l ->
  forall cd, List.map fragment_text (scan cd l) = l.
Proof.
  induction 1 as [|t l Ht _ IH]; intros cd; [reflexivity|].
  destruct (is_date_cases t) as [E|E]; [|rewrite E in Ht; discriminate].
  rewrite (scan_dated_row _ _ _ _ E). cbn [List.map fragment_text].
  now rewrite IH.
Qed.

Lemma rescan_fixed (rows : list pystr) :
  let out := List.filter (contains EN_DASH)
                         (List.map fragment_text (scan None rows)) in
  List.map fragment_text (scan None out) = out.
Proof.
  cbv zeta. induction rows as [|r rows IH]; [reflexivity|].
  destruct (is_date_cases r) as [E|E].
  - rewrite (scan_dated_row _ _ _ _ E).
    cbn [List.map List.filter fragment_text].
    pose proof (kept_lines_dated rows r _ E) as Hdated.
    destruct (contains EN_DASH r) eqn:Hr.
    + apply dated_lines_fixed. constructor; [now rewrite E|exact Hdated].
    + now apply dated_lines_fixed.
  - rewrite (scan_early_row _ _ E).
    cbn [List.map List.filter fragment_text].
    destruct (contains EN_DASH r) eqn:Hr; [|exact IH].
    rewrite (scan_early_row _ _ E). cbn [List.map fragment_text].
    f_equal. exact IH.
Qed.

(** X6. Running the carry-forward cell a second time changes nothing: no
    date is put before a line twice and no line is lost. *)
Theorem date_qualify_idempotent (df : list pystr) :
  date_qualify (date_qualify df) = date_qualify df.
Proof.
  unfold date_qualify, keep_dashed. rewrite !carry_forward_scan.
  pose proof (rescan_fixed df) as Hfix. cbv zeta in Hfix.
  rewrite Hfix. apply filter_fixed.
Qed.

Lemma scan_subsequence (rows : list pystr) :
  forall cd,
  exists kept,
    kept `sublist_of` rows
    /\ Forall2 carries
         (List.filter (contains EN_DASH) (List.map fragment_text (scan cd rows)))
         kept.
Proof.
  induction rows as [|r rows IH]; intros cd.
  - exists []. split; constructor.
  - assert (Hstep : forall t cd',
      carries t r ->
      exists kept,
        kept `sublist_of` (r :: rows)
        /\ Forall2 carries
             (List.filter (contains EN_DASH)
                          (t :: List.map fragment_text (scan cd' rows)))
             kept).
    { intros t cd' Ht. destruct (IH cd') as (kept & Hsub & Hall).
      cbn [List.filter]. destruct (contains EN_DASH t).
      - exists (r :: kept). split; now constructor.
      - exists kept. split; [now constructor|exact Hall]. }
    destruct (is_date_cases r) as [E|E].
    + rewrite (scan_dated_row _ _ _ _ E). apply Hstep. now left.
    + destruct cd as [d|].
      * rewrite (scan_carried_row _ _ _ E). apply Hstep. right. now exists d.
      * rewrite (scan_early_row _ _ E). apply Hstep. now left.
Qed.

(** X7. The preprocessor neither invents nor reorders lines: its output
    stands, line for line and in order, for a subsequence of the input
    lines, each either verbatim or behind a date and the separator. *)
Theorem preprocess_subsequence (lines : list pystr) :
  exists kept,
    kept `sublist_of` lines
    /\ Forall2 carries (preprocess lines) kept.
Proof.
  unfold preprocess, date_qualify, keep_dashed. rewrite carry_forward_scan.
  destruct (scan_subsequence (clean lines) None) as (kept & Hsub & Hall).
  exists kept. split; [|exact Hall].
  etransitivity; [exact Hsub|]. apply filter_sublist.
Qed.

End PreprocessorRerun.

(** ** The embedding cells *)

Lemma foldl_map {A B C} (f : A -> B -> A) (g : C -> B) (l : list C) (a : A) :
  foldl f a (List.map g l) = foldl (fun a x => f a (g x)) a l.
Proof. revert a. induction l as [|c l IH]; intros a; simpl; auto. Qed.

Lemma div_up_covers (n step : nat) :
  0 < step -> n <= (n + step - 1) / step * step.
Proof.
  intros Hstep.
  pose proof (Nat.div_mod_eq (n + step - 1) step) as Hdm.
  pose proof (Nat.mod_upper_bound (n + step - 1) step ltac:(lia)) as Hmod.
  nia.
Qed.

Lemma div_up_tight (n step i : nat) :
  0 < step -> i < (n + step - 1) / step -> i * step < n.
Proof.
  intros Hstep Hi.
  pose proof (Nat.div_mod_eq (n + step - 1) step) as Hdm.
  pose proof (Nat.mod_upper_bound (n + step - 1) step ltac:(lia)) as Hmod.
  nia.
Qed.

Lemma chunks_concat {A} (step : nat) (k : nat) :
  forall l : list A,
    length l <= k * step ->
    concat (List.map (fun i => take step (drop (i * step) l)) (seq 0 k)) = l.
Proof.
  induction k as [|k IH]; intros l Hlen.
  - destruct l; [reflexivity|simpl in Hlen; lia].
  - rewrite <- cons_seq, <- seq_shift, List.map_cons, List.map_map.
    cbn [concat]. rewrite Nat.mul_0_l, drop_0.
    rewrite (List.map_ext _ (fun i => take step (drop (i * step) (drop step l)))).
    2:{ intros i. rewrite drop_drop. do 2 f_equal; lia. }
    rewrite IH by (rewrite length_drop; lia).
    apply take_drop.
Qed.

Lemma batches_chunks (texts : list pystr) :
  batches texts
  = List.map (fun i => take batch_size (drop (i * batch_size) texts))
             (seq 0 ((length texts + batch_size - 1) / batch_size)).
Proof.
  unfold batches, range, slice. rewrite List.map_map.
  apply List.map_ext. intros i. do 2 f_equal. lia.
Qed.

Lemma batches_cover (texts : list pystr) :
  concat (batches texts) = texts
  /\ Forall (fun batch => 0 < length batch <= batch_size) (batches texts).
Proof.
  rewrite batches_chunks. split.
  - apply chunks_concat. apply div_up_covers. unfold batch_size. lia.
  - apply List.Forall_forall. intros batch Hin.
    apply in_map_iff in Hin. destruct Hin as (i & <- & Hi).
    apply in_seq in Hi.
    pose proof (div_up_tight (length texts) batch_size i
                  ltac:(unfold batch_size; lia) ltac:(lia)) as Htight.
    rewrite length_take, length_drop. unfold batch_size in *. lia.
Qed.

Section CorpusFacts.
Context {svc : Services}.

(** The loop as a fold over its requests. *)
Lemma embed_frame_batches (texts : list pystr) (embeddings : list vec) :
  embed_frame texts embeddings
  = foldl (fun acc batch =>
             embeddings <- acc ;;
             data <- embeddings_create batch EMBEDDING_MODEL_NAME ;;
             Ok (embeddings ++ data))
          (Ok embeddings) (batches texts).
Proof. unfold embed_frame, batches. now rewrite foldl_map. Qed.

(** X8. The loop is a run over its requests, each added to the list in
    turn; the requests hold every text exactly once and in order, each
    request at least one and at most 100 texts, so an empty frame sends no
    request. *)
Theorem batches_partition (texts : list pystr) (embeddings : list vec) :
  embed_frame texts embeddings
  = foldl (fun acc batch =>
             embeddings <- acc ;;
             data <- embeddings_create batch EMBEDDING_MODEL_NAME ;;
             Ok (embeddings ++ data))
          (Ok embeddings) (batches texts)
  /\ concat (batches texts) = texts
  /\ Forall (fun batch => 0 < length batch <= batch_size) (batches texts).
Proof. split; [apply embed_frame_batches|apply batches_cover]. Qed.

Lemma foldl_raised (e : exn) (l : list (list pystr)) :
  foldl (fun acc batch =>
           embeddings <- acc ;;
           data <- embeddings_create batch EMBEDDING_MODEL_NAME ;;
           Ok (embeddings ++ data))
        (Raise e) l
  = Raise e.
Proof. induction l as [|b l IH]; simpl; auto. Qed.

Lemma foldl_answered (answer : list pystr -> list vec) (l : list (list pystr)) :
  forall embeddings,
    (forall batch, In batch l ->
       embeddings_create batch EMBEDDING_MODEL_NAME = Ok (answer batch)) ->
    foldl (fun acc batch =>
             embeddings <- acc ;;
             data <- embeddings_create batch EMBEDDING_MODEL_NAME ;;
             Ok (embeddings ++ data))
          (Ok embeddings) l
    = Ok (embeddings ++ concat (List.map answer l)).
Proof.
  induction l as [|b l IH]; intros embeddings Hall; simpl.
  - now rewrite app_nil_r.
  - rewrite (Hall b) by now left. simpl.
    rewrite IH by (intros; apply Hall; now right).
    now rewrite <- app_assoc.
Qed.

Lemma concat_map_map {A B} (f : A -> B) (ls : list (list A)) :
  concat (List.map (List.map f) ls) = List.map f (concat ls).
Proof.
  induction ls as [|l ls IH]; simpl; [reflexivity|].
  now rewrite IH, map_app.
Qed.

(** A frame whose rows all have their text, read as rows. *)
Lemma rows_texts (embed : pystr -> vec) (texts : list pystr) :
  rows (zip_with (fun text embedding => (Some text, embedding))
                 texts (List.map embed texts))
  = List.map (fun t => {| text := t; embeddings := embed t |}) texts.
Proof.
  induction texts as [|t texts IH]; [reflexivity|].
  unfold rows in *. simpl. f_equal. exact IH.
Qed.

(** X9. Batching is transparent. When the service embeds each text of a
    request on its own, the corpus is the frame's texts, in order, each
    with its own embedding. *)
Theorem embed_corpus_pointwise (embed : pystr -> vec) (texts : list pystr) :
  (forall batch, In batch (batches texts) ->
     embeddings_create batch EMBEDDING_MODEL_NAME = Ok (List.map embed batch)) ->
  embed_frame texts [] = Ok (List.map embed texts)
  /\ embed_corpus texts
     = Ok (List.map (fun t => {| text := t; embeddings := embed t |}) texts).
Proof.
  intros Hsvc.
  assert (Hframe : embed_frame texts [] = Ok (List.map embed texts)).
  { rewrite embed_frame_batches, (foldl_answered (List.map embed)) by exact Hsvc.
    simpl. rewrite concat_map_map.
    now rewrite (proj1 (batches_cover texts)). }
  split; [exact Hframe|].
  unfold embed_corpus. rewrite Hframe. simpl. unfold set_embeddings.
  rewrite length_map, Nat.eqb_refl. simpl. f_equal. apply rows_texts.
Qed.

(** The corpus keeps every row of the frame: started from the empty
    list, the assignment never meets a frame without rows and a list that
    is not empty. *)
Lemma embed_corpus_texts (texts : list pystr) (corpus : list Row) :
  embed_corpus texts = Ok corpus ->
  List.map text corpus = texts.
Proof.
  unfold embed_corpus.
  destruct (embed_frame texts []) as [embeddings|e] eqn:Hframe; simpl;
    [|discriminate].
  unfold set_embeddings.
  destruct (Nat.eqb_spec (length embeddings) (length texts)) as [Hlen|Hlen]; simpl.
  - intros [= <-]. clear Hframe. revert embeddings Hlen.
    induction texts as [|t texts IH]; intros [|v embeddings]; simpl;
      try discriminate; [reflexivity|].
    intros [= Hlen]. f_equal. now apply IH.
  - destruct texts as [|t texts]; simpl; [|discriminate].
    exfalso. apply Hlen. cbv in Hframe. now injection Hframe as <-.
Qed.

(** X10. A list [embeddings] that is not empty when the loop starts (the
    loop cell run again without the cell that empties the list) is only
    added to. The assignment of the column then raises [ValueError] when
    the frame has rows; a frame with no rows raises nothing and takes one
    row, its text missing, for each element of the list. *)
Theorem stale_embeddings_assigned
    (embed : pystr -> vec) (texts : list pystr) (stale : list vec) :
  (forall batch, In batch (batches texts) ->
     embeddings_create batch EMBEDDING_MODEL_NAME = Ok (List.map embed batch)) ->
  stale <> [] ->
  embed_frame texts stale = Ok (stale ++ List.map embed texts)
  /\ match texts with
     | _ :: _ =>
         exists msg,
           set_embeddings texts (stale ++ List.map embed texts)
           = Raise (PyException (str "ValueError") msg)
     | [] =>
         set_embeddings texts (stale ++ List.map embed texts)
         = Ok (List.map (fun embedding => (None, embedding)) stale)
     end.
Proof.
  intros Hsvc Hstale. split.
  - rewrite embed_frame_batches, (foldl_answered (List.map embed)) by exact Hsvc.
    rewrite concat_map_map. now rewrite (proj1 (batches_cover texts)).
  - unfold set_embeddings. rewrite length_app, length_map.
    destruct stale as [|v stale]; [congruence|].
    destruct (Nat.eqb_spec (length (v :: stale) + length texts) (length texts))
      as [Heq|_]; [simpl in Heq; lia|].
    destruct texts as [|t texts]; simpl.
    + now rewrite app_nil_r.
    + eauto.
Qed.

(** X11. The loop does not go on after a request that raises: when the
    requests before it are answered and it raises, the loop raises the
    same exception, and no corpus is built. *)
Theorem embed_frame_failure
    (texts : list pystr) (answered : list (list pystr)) (refused : list pystr)
    (later : list (list pystr)) (e : exn) :
  batches texts = answered ++ refused :: later ->
  Forall (fun batch =>
            exists data, embeddings_create batch EMBEDDING_MODEL_NAME = Ok data)
         answered ->
  embeddings_create refused EMBEDDING_MODEL_NAME = Raise e ->
  (forall embeddings, embed_frame texts embeddings = Raise e)
  /\ embed_corpus texts = Raise e.
Proof.
  intros Hbatches Hanswered Hrefused.
  assert (Hframe : forall embeddings, embed_frame texts embeddings = Raise e).
  { intros embeddings. rewrite embed_frame_batches, Hbatches. clear Hbatches.
    revert embeddings. induction Hanswered as [|b bs [data Hb] _ IH];
      intros embeddings; simpl.
    - rewrite Hrefused. simpl. apply foldl_raised.
    - rewrite Hb. simpl. apply IH. }
  split; [exact Hframe|]. unfold embed_corpus. now rewrite Hframe.
Qed.

End CorpusFacts.

(** The run of X9 on the stubs: 101 texts, two requests. *)
Lemma embed_corpus_pointwise_witness :
  embed_frame (svc := Stub.services) (repeat (str "a") 101) []
  = Ok (List.map (fun _ => [1%float; 0%float]) (repeat (str "a") 101))
  /\ embed_corpus (svc := Stub.services) (repeat (str "a") 101)
     = Ok (List.map (fun t => {| text := t; embeddings := [1%float; 0%float] |})
                    (repeat (str "a") 101)).
Proof.
  apply (embed_corpus_pointwise (svc := Stub.services) (fun _ => [1%float; 0%float])).
  intros batch _. reflexivity.
Defined.

(** The runs of X10 on the stubs: a frame of two rows, and a frame with
    no rows. *)
Lemma stale_embeddings_assigned_witness :
  (embed_frame (svc := Stub.services) [str "a"; str "b"] [[0%float; 1%float]]
   = Ok ([[0%float; 1%float]] ++ List.map (fun _ => [1%float; 0%float]) [str "a"; str "b"])
   /\ exists msg,
        set_embeddings [str "a"; str "b"]
          ([[0%float; 1%float]] ++ List.map (fun _ => [1%float; 0%float])
                                            [str "a"; str "b"])
        = Raise (PyException (str "ValueError") msg))
  /\ (embed_frame (svc := Stub.services) [] [[0%float; 1%float]]
      = Ok ([[0%float; 1%float]]
              ++ List.map (fun _ : pystr => [1%float; 0%float]) [])
      /\ set_embeddings []
           ([[0%float; 1%float]] ++ List.map (fun _ : pystr => [1%float; 0%float]) [])
         = Ok (List.map (fun embedding => (None, embedding)) [[0%float; 1%float]])).
Proof.
  split.
  - apply (stale_embeddings_assigned (svc := Stub.services) (fun _ => [1%float; 0%float])
             [str "a"; str "b"]).
    + intros batch _. reflexivity.
    + discriminate.
  - apply (stale_embeddings_assigned (svc := Stub.services) (fun _ => [1%float; 0%float])
             []).
    + intros batch _. reflexivity.
    + discriminate.
Defined.

(** The run of X11 on the strict stub: the second request holds an empty
    text. *)
Lemma embed_frame_failure_witness :
  embed_frame (svc := strict_services) (repeat (str "a") 100 ++ [[]]) []
  = Raise (PyException (str "BadRequestError") (str "input must not be empty"))
  /\ embed_corpus (svc := strict_services) (repeat (str "a") 100 ++ [[]])
     = Raise (PyException (str "BadRequestError") (str "input must not be empty")).
Proof.
  destruct (embed_frame_failure (svc := strict_services)
              (repeat (str "a") 100 ++ [[]]) [repeat (str "a") 100] [[]] []
              (PyException (str "BadRequestError") (str "input must not be empty")))
    as [Hframe Hcorpus].
  - vm_compute. reflexivity.
  - constructor; [|constructor]. eexists. vm_compute. reflexivity.
  - vm_compute. reflexivity.
  - split; [apply Hframe|exact Hcorpus].
Defined.

(** ** The ranker *)

Lemma replace_sent (old : N) (new s : pystr) :
  contains old new = false ->
  contains old (replace old new s) = false.
Proof.
  intros Hnew. unfold replace. induction s as [|c s IH]; simpl; [reflexivity|].
  rewrite contains_app, IH, orb_false_r.
  destruct (N.eqb_spec c old) as [->|Hne]; [exact Hnew|].
  simpl. apply N.eqb_neq in Hne. now rewrite Hne.
Qed.

Lemma replace_length (old c' : N) (s : pystr) :
  length (replace old [c'] s) = length s.
Proof.
  unfold replace. induction s as [|c s IH]; simpl; [reflexivity|].
  rewrite length_app, IH. now destruct (c =? old)%N.
Qed.

Lemma mapM_Forall2 {A B} (f : A -> result B) (l : list A) (bs : list B) :
  mapM f l = Ok bs <-> Forall2 (fun a b => f a = Ok b) l bs.
Proof.
  revert bs. induction l as [|a l IH]; intros bs; simpl.
  - split.
    + intros [= <-]. constructor.
    + intros H. now inversion H.
  - split.
    + destruct (f a) as [b|e] eqn:Hfa; simpl; [|discriminate].
      destruct (mapM f l) as [bs'|e] eqn:Hl; simpl; [|discriminate].
      intros [= <-]. constructor; [exact Hfa|]. now apply IH.
    + intros H. inversion H as [|? b ? bs' Hfa Hrest]; subst.
      rewrite Hfa. simpl. apply IH in Hrest. now rewrite Hrest.
Qed.

Lemma getitem_missing {V} (d : list (pystr * V)) (k : pystr) :
  ~ In k (List.map fst d) ->
  getitem d k = Raise (PyException (str "KeyError") k).
Proof.
  induction d as [|[k' v] d IH]; simpl; [reflexivity|].
  intros Hnot. rewrite bool_decide_eq_false_2 by tauto. apply IH. tauto.
Qed.

Lemma rows_zip (df : list Row) (keys : list float) :
  length keys = length df ->
  List.map row (zip_with (fun r d => {| row := r; distances := d |}) df keys) = df.
Proof.
  revert keys. induction df as [|r df IH]; intros [|k keys]; simpl;
    try discriminate; [reflexivity|].
  intros [= Hlen]. now rewrite IH.
Qed.

Lemma omap_lookup_shift {A} (a : A) (l : list A) (order : list nat) :
  omap (fun i => (a :: l) !! i) (List.map S order) = omap (fun i => l !! i) order.
Proof.
  induction order as [|o order IH]; [reflexivity|].
  change (omap (fun i => (a :: l) !! i) (List.map S (o :: order)))
    with (match l !! o with
          | Some y => y :: omap (fun i => (a :: l) !! i) (List.map S order)
          | None => omap (fun i => (a :: l) !! i) (List.map S order)
          end).
  rewrite IH. reflexivity.
Qed.

Lemma omap_lookup_seq {A} (l : list A) :
  omap (fun i => l !! i) (seq 0 (length l)) = l.
Proof.
  induction l as [|a l IH]; [reflexivity|].
  cbn [length]. rewrite <- cons_seq, <- seq_shift.
  transitivity (a :: omap (fun i => (a :: l) !! i) (List.map S (seq 0 (length l))));
    [reflexivity|].
  f_equal. rewrite <- IH at 2. apply omap_lookup_shift.
Qed.

Lemma omap_lookup_at {A} (l : list A) (order : list nat) :
  Forall (fun i => i < length l) order ->
  forall a, omap (fun i => l !! i) order !! a = order !! a ≫= (fun i => l !! i).
Proof.
  induction 1 as [|o order Ho _ IH]; intros a; [reflexivity|].
  destruct (lookup_lt_is_Some_2 l o Ho) as [x Hx].
  change (omap (fun i => l !! i) (o :: order))
    with (match l !! o with
          | Some y => y :: omap (fun i => l !! i) order
          | None => omap (fun i => l !! i) order
          end).
  rewrite Hx. destruct a as [|a]; simpl; [now rewrite Hx|apply IH].
Qed.

Section RankMore.
Context {svc : Services}.

Lemma sorted_positions_permutation (keys : list float) (order : list nat) :
  sorted_positions keys order = true ->
  Permutation order (seq 0 (length keys)).
Proof.
  unfold sorted_positions. intros Hsorted.
  apply andb_prop in Hsorted. destruct Hsorted as [Hsorted _].
  apply andb_prop in Hsorted. destruct Hsorted as [Hlen Hall].
  apply Nat.eqb_eq in Hlen. rewrite forallb_forall in Hall.
  symmetry. apply NoDup_Permutation_bis.
  - apply seq_NoDup.
  - rewrite length_seq. lia.
  - intros i Hi. specialize (Hall i Hi). apply existsb_exists in Hall.
    destruct Hall as (x & Hx & Hxi). apply Nat.eqb_eq in Hxi. now subst.
Qed.

Lemma sorted_positions_ascending (keys : list float) (order : list nat)
    (a b ia ib : nat) (ka kb : float) :
  sorted_positions keys order = true ->
  a < b ->
  order !! a = Some ia -> order !! b = Some ib ->
  keys !! ia = Some ka -> keys !! ib = Some kb ->
  PrimFloat.ltb kb ka = false.
Proof.
  unfold sorted_positions. intros Hsorted Hab Ha Hb Hka Hkb.
  apply andb_prop in Hsorted. destruct Hsorted as [_ Hinv].
  rewrite forallb_forall in Hinv.
  specialize (Hinv b). rewrite in_seq in Hinv.
  pose proof (lookup_lt_Some _ _ _ Hb) as Hblt.
  specialize (Hinv ltac:(lia)). rewrite forallb_forall in Hinv.
  specialize (Hinv a). rewrite in_seq in Hinv. specialize (Hinv ltac:(lia)).
  rewrite Ha, Hb, Hka, Hkb in Hinv. now apply negb_true_iff in Hinv.
Qed.

(** The frame with its [distances] column, before it is sorted. *)
Lemma ranking_steps (question : pystr) (df : list Row) (q : vec)
    (ranked : list RankedRow) :
  get_embedding question EMBEDDING_MODEL_NAME = Ok q ->
  get_rows_by_relevance question df = Ok ranked ->
  exists keys,
    distances_from_embeddings q (List.map embeddings df) (str "cosine") = Ok keys
    /\ length keys = length df
    /\ (forall i r k, df !! i = Some r -> keys !! i = Some k ->
                      cosine q (embeddings r) = Ok k)
    /\ ranked
       = omap (fun i =>
                 zip_with (fun r d => {| row := r; distances := d |}) df keys !! i)
              (argsort keys).
Proof.
  intros Hq. unfold get_rows_by_relevance. rewrite Hq. simpl bind.
  destruct (distances_from_embeddings q (List.map embeddings df) (str "cosine"))
    as [keys|e] eqn:Hkeys; simpl bind; [|discriminate].
  intros [= <-]. exists keys.
  pose proof Hkeys as Hm. rewrite distances_cosine in Hm. apply mapM_Ok in Hm.
  destruct Hm as [Hlen Hall]. rewrite length_map in Hlen.
  split; [reflexivity|]. split; [exact Hlen|]. split.
  - intros i r k Hi Hk. destruct (Hall i (embeddings r)) as (b & Hb & Hc).
    { now rewrite lookup_map, Hi. }
    rewrite Hk in Hb. now injection Hb as <-.
  - unfold sort_values. now rewrite distances_zip.
Qed.

Lemma ranked_rows_spec
    (question : pystr) (df : list Row) (q : vec) (ranked : list RankedRow) :
  get_embedding question EMBEDDING_MODEL_NAME = Ok q ->
  get_rows_by_relevance question df = Ok ranked ->
  Forall (fun r : RankedRow =>
            In (row r) df /\ cosine q (embeddings r) = Ok (distances r))
         ranked.
Proof.
  intros Hq Hranked.
  destruct (ranking_steps question df q ranked Hq Hranked)
    as (keys & _ & Hlen & Hown & ->).
  apply List.Forall_forall. intros r Hr.
  apply list_elem_of_In, list_elem_of_omap in Hr. destruct Hr as (i & _ & Hi).
  apply lookup_zip_with_Some in Hi. destruct Hi as (x & d & -> & Hx & Hd).
  simpl. split; [|now apply (Hown i)].
  apply list_elem_of_In, list_elem_of_lookup. eauto.
Qed.

(** X15. Sorting never separates a row from its distance: every row of the
    ranking is a row of the frame, and its distance is the cosine distance
    between the query embedding and that row's own embedding. *)
Theorem ranked_rows_own_distance
    (question : pystr) (df : list Row) (q : vec) (ranked : list RankedRow) :
  get_embedding question EMBEDDING_MODEL_NAME = Ok q ->
  get_rows_by_relevance question df = Ok ranked ->
  Forall (fun r : RankedRow =>
            In (row r) df /\ cosine q (embeddings r) = Ok (distances r))
         ranked.
Proof. apply ranked_rows_spec. Qed.

(** X16. When [sort_values] orders the frame by its keys, ranking keeps
    every row of the frame exactly once. *)
Theorem ranking_is_permutation
    (question : pystr) (df : list Row) (q : vec) (ranked : list RankedRow) :
  get_embedding question EMBEDDING_MODEL_NAME = Ok q ->
  get_rows_by_relevance question df = Ok ranked ->
  (forall keys,
     distances_from_embeddings q (List.map embeddings df) (str "cosine") = Ok keys ->
     sorted_positions keys (argsort keys) = true) ->
  Permutation (List.map row ranked) df.
Proof.
  intros Hq Hranked Hsort.
  destruct (ranking_steps question df q ranked Hq Hranked)
    as (keys & Hkeys & Hlen & _ & ->).
  pose proof (sorted_positions_permutation _ _ (Hsort keys Hkeys)) as Hperm.
  set (df_copy := zip_with (fun r d => {| row := r; distances := d |}) df keys).
  assert (Hcopy : length df_copy = length keys).
  { unfold df_copy. rewrite length_zip_with. lia. }
  transitivity (List.map row df_copy); [|unfold df_copy; now rewrite rows_zip].
  apply Permutation_map.
  transitivity (omap (fun i => df_copy !! i) (seq 0 (length df_copy)));
    [|now rewrite omap_lookup_seq].
  rewrite Hcopy. now apply omap_Permutation.
Qed.

(** X17. When [sort_values] orders the frame by its keys, no row of the
    ranking stands after a row with a strictly larger distance. *)
Theorem ranking_is_ascending
    (question : pystr) (df : list Row) (q : vec) (ranked : list RankedRow) :
  get_embedding question EMBEDDING_MODEL_NAME = Ok q ->
  get_rows_by_relevance question df = Ok ranked ->
  (forall keys,
     distances_from_embeddings q (List.map embeddings df) (str "cosine") = Ok keys ->
     sorted_positions keys (argsort keys) = true) ->
  forall a b ra rb,
    a < b -> ranked !! a = Some ra -> ranked !! b = Some rb ->
    PrimFloat.ltb (distances rb) (distances ra) = false.
Proof.
  intros Hq Hranked Hsort a b ra rb Hab Ha Hb.
  destruct (ranking_steps question df q ranked Hq Hranked)
    as (keys & Hkeys & Hlen & _ & ->).
  pose proof (Hsort keys Hkeys) as Hsorted.
  pose proof (sorted_positions_permutation _ _ Hsorted) as Hperm.
  set (df_copy := zip_with (fun r d => {| row := r; distances := d |}) df keys) in *.
  assert (Hcopy : length df_copy = length keys).
  { unfold df_copy. rewrite length_zip_with. lia. }
  assert (Hrange : Forall (fun i => i < length df_copy) (argsort keys)).
  { apply List.Forall_forall. intros i Hi.
    apply (Permutation_in _ Hperm) in Hi. apply in_seq in Hi. lia. }
  rewrite (omap_lookup_at df_copy _ Hrange) in Ha, Hb.
  destruct (argsort keys !! a) as [ia|] eqn:Hia; [|discriminate].
  destruct (argsort keys !! b) as [ib|] eqn:Hib; [|discriminate].
  simpl in Ha, Hb.
  apply lookup_zip_with_Some in Ha. destruct Ha as (xa & ka & -> & _ & Hka).
  apply lookup_zip_with_Some in Hb. destruct Hb as (xb & kb & -> & _ & Hkb).
  simpl. exact (sorted_positions_ascending keys _ a b ia ib ka kb
                  Hsorted Hab Hia Hib Hka Hkb).
Qed.

(** X12. [get_embedding] asks for one text, the given text with every line
    break replaced by a blank, and returns the first embedding of the
    answer; an answer without embeddings raises [IndexError], and what the
    service raises is raised. *)
Theorem get_embedding_request (text model_name : pystr) :
  let sent := replace NL (str " ") text in
  contains NL sent = false
  /\ length sent = length text
  /\ get_embedding text model_name
     = match embeddings_create [sent] model_name with
       | Ok (embedding :: _) => Ok embedding
       | Ok [] => Raise (PyException (str "IndexError")
                           (str "list index out of range"))
       | Raise e => Raise e
       end.
Proof.
  cbv zeta. split; [now apply replace_sent|]. split; [apply replace_length|].
  unfold get_embedding.
  destruct (embeddings_create _ _) as [[|e data]|e]; reflexivity.
Qed.

(** X13. For each of the four metric names, [distances_from_embeddings]
    returns one distance per embedding, in order, each the metric's value
    for the query and that embedding; it returns at all only when the
    metric returns for every embedding. *)
Theorem distances_per_embedding
    (query_embedding : vec) (embeddings : list vec) (name : pystr)
    (metric : vec -> vec -> result float) (ds : list float) :
  In (name, metric) distance_metrics ->
  (distances_from_embeddings query_embedding embeddings name = Ok ds
   <-> Forall2 (fun e d => metric query_embedding e = Ok d) embeddings ds).
Proof.
  intros Hin. unfold distances_from_embeddings.
  rewrite (mapM_ext _ (metric query_embedding)); [apply mapM_Forall2|].
  intros e. unfold distance_metrics in *. simpl in Hin.
  destruct Hin as [[= <- <-]|[[= <- <-]|[[= <- <-]|[[= <- <-]|[]]]]]; reflexivity.
Qed.

(** X14. A metric name outside the four is looked up once per embedding:
    with no embedding nothing is looked up and the result is the empty
    list; with one embedding or more the call raises [KeyError]. *)
Theorem unknown_metric
    (query_embedding : vec) (name : pystr) :
  ~ In name [str "cosine"; str "L1"; str "L2"; str "inf"] ->
  distances_from_embeddings query_embedding [] name = Ok []
  /\ forall embedding embeddings,
       exists msg,
         distances_from_embeddings query_embedding (embedding :: embeddings) name
         = Raise (PyException (str "KeyError") msg).
Proof.
  intros Hname. split; [reflexivity|]. intros embedding embeddings.
  exists name. unfold distances_from_embeddings. cbn [mapM].
  rewrite getitem_missing by exact Hname. reflexivity.
Qed.

End RankMore.

(** The runs of X13 to X17 on the stubs. *)
Lemma distances_per_embedding_witness :
  distances_from_embeddings (svc := Stub.services) [1%float; 0%float]
    [[1%float; 0%float]; [0%float; 2%float]] (str "L1")
  = Ok [0%float; 3%float]
  <-> Forall2 (fun e d => Stub.cityblock [1%float; 0%float] e = Ok d)
        [[1%float; 0%float]; [0%float; 2%float]] [0%float; 3%float].
Proof.
  apply (distances_per_embedding (svc := Stub.services)).
  right. left. reflexivity.
Defined.

Lemma unknown_metric_witness :
  distances_from_embeddings (svc := Stub.services) [1%float; 0%float] []
    (str "manhattan") = Ok []
  /\ forall embedding embeddings,
       exists msg,
         distances_from_embeddings (svc := Stub.services) [1%float; 0%float]
           (embedding :: embeddings) (str "manhattan")
         = Raise (PyException (str "KeyError") msg).
Proof.
  apply (unknown_metric (svc := Stub.services)).
  intros [H|[H|[H|[H|[]]]]]; discriminate.
Defined.

Lemma ranked_rows_own_distance_witness :
  Forall (fun r : RankedRow =>
            In (row r) Stub.frame_costs
            /\ Stub.cosine [1%float; 0%float] (embeddings r) = Ok (distances r))
         Stub.ranked_costs.
Proof.
  apply (ranked_rows_own_distance (svc := Stub.services) (str "q") Stub.frame_costs);
    vm_compute; reflexivity.
Defined.

Lemma ranking_is_permutation_witness :
  Permutation (List.map row Stub.ranked_costs) Stub.frame_costs.
Proof.
  apply (ranking_is_permutation (svc := Stub.services) (str "q") Stub.frame_costs
           [1%float; 0%float]).
  - reflexivity.
  - vm_compute. reflexivity.
  - intros keys Hkeys. vm_compute in Hkeys. injection Hkeys as <-.
    vm_compute. reflexivity.
Defined.

Lemma ranking_is_ascending_witness :
  let first := {| row := {| text := str "aaaaa"; embeddings := [1%float; 0%float] |};
                  distances := 0%float |} in
  let last := {| row := {| text := str "dd"; embeddings := [(-1)%float; 0%float] |};
                 distances := 2%float |} in
  Stub.ranked_costs !! 0 = Some first
  /\ Stub.ranked_costs !! 3 = Some last
  /\ PrimFloat.ltb (distances last) (distances first) = false.
Proof.
  cbv zeta. split; [reflexivity|]. split; [reflexivity|].
  apply (ranking_is_ascending (svc := Stub.services) (str "q") Stub.frame_costs
           [1%float; 0%float] Stub.ranked_costs) with (a := 0) (b := 3).
  - reflexivity.
  - vm_compute. reflexivity.
  - intros keys Hkeys. vm_compute in Hkeys. injection Hkeys as <-.
    vm_compute. reflexivity.
  - lia.
  - reflexivity.
  - reflexivity.
Defined.

(** ** The context assembler and [answer_question] *)

Section PromptMore.
Context {svc : Services} {tk : Tiktoken}.
Open Scope Z_scope.

Lemma pack_prefix (max_token_count : Z) (texts : list pystr) :
  forall current, pack max_token_count texts current [] `prefix_of` texts.
Proof.
  induction texts as [|t texts IH]; intros current.
  - apply prefix_nil.
  - rewrite pack_cons. destruct (_ <? _); [|apply prefix_nil].
    apply prefix_cons, IH.
Qed.

Lemma pack_monotone (low high : Z) (texts : list pystr) :
  low <= high ->
  forall current,
    pack low texts current [] `prefix_of` pack high texts current [].
Proof.
  intros Hle. induction texts as [|t texts IH]; intros current.
  - apply prefix_nil.
  - rewrite !pack_cons.
    destruct (Z.ltb_spec (current + count_tokens t) low); [|apply prefix_nil].
    destruct (Z.ltb_spec (current + count_tokens t) high); [|lia].
    apply prefix_cons, IH.
Qed.

Lemma pack_maximal (max_token_count : Z) (texts : list pystr) :
  forall current,
    pack max_token_count texts current [] = texts
    \/ exists t rest,
         texts = pack max_token_count texts current [] ++ t :: rest
         /\ max_token_count
            <= current + tokens_of (pack max_token_count texts current [])
               + count_tokens t.
Proof.
  induction texts as [|t texts IH]; intros current; [now left|].
  rewrite pack_cons.
  destruct (Z.ltb_spec (current + count_tokens t) max_token_count) as [Hlt|Hge].
  - destruct (IH (current + count_tokens t)) as [Hall|(t' & rest & Htexts & Hover)].
    + left. now rewrite Hall.
    + right. exists t', rest. split.
      * simpl. now rewrite <- Htexts.
      * simpl. lia.
  - right. exists t, texts. split; [reflexivity|]. simpl. lia.
Qed.

(** X18. The context is always a run of the ranked texts from the first
    on, in their order, and a larger budget only ever extends it. *)
Theorem context_is_prefix (question : pystr) (texts : list pystr) (low high : Z) :
  select_context question texts low `prefix_of` texts
  /\ (low <= high ->
      select_context question texts low `prefix_of` select_context question texts high).
Proof.
  unfold select_context. split; [apply pack_prefix|].
  intros Hle. now apply pack_monotone.
Qed.

(** X19. A text is left out only behind an overflow: either every ranked
    text is in the context, or the first text left out would have taken the
    count of template, question and context to the budget or beyond. When
    template, question and all texts together stay below the budget, every
    text is in. *)
Theorem context_is_maximal (question : pystr) (texts : list pystr) (max_token_count : Z) :
  let base := count_tokens prompt_template + count_tokens question in
  let context := select_context question texts max_token_count in
  (context = texts
   \/ exists t rest,
        texts = context ++ t :: rest
        /\ max_token_count <= base + tokens_of context + count_tokens t)
  /\ (base + tokens_of texts < max_token_count -> context = texts).
Proof.
  cbv zeta. unfold select_context.
  pose proof (pack_maximal max_token_count texts
                (len (encode prompt_template) + len (encode question))) as Hmax.
  fold (count_tokens prompt_template) in *. fold (count_tokens question) in *.
  split; [exact Hmax|]. intros Hfits.
  destruct Hmax as [Hall|(t & rest & Htexts & Hover)]; [exact Hall|].
  exfalso. rewrite Htexts in Hfits at 1. rewrite tokens_of_app in Hfits.
  simpl in Hfits. pose proof (tokens_of_nonneg rest). lia.
Qed.

(** The accumulator of the loop is only ever appended to. *)
Lemma pack_checked_context (max_token_count : Z) (texts : list pystr) :
  forall current context,
    pack_checked max_token_count texts current context
    = (accepted <- pack_checked max_token_count texts current [] ;;
       Ok (context ++ accepted)).
Proof.
  induction texts as [|t texts IH]; intros current context; simpl.
  - now rewrite app_nil_r.
  - destruct (encode_checked t) as [tokens|e]; simpl; [|reflexivity].
    destruct (_ <? _); simpl; [|now rewrite app_nil_r].
    rewrite (IH _ (context ++ [t])), (IH _ [t]).
    destruct (pack_checked max_token_count texts _ []); simpl; [|reflexivity].
    now rewrite <- app_assoc.
Qed.

(** The loop raises exactly when the tokenizer refuses one of the texts
    it encodes, and then the exception of the first such text; otherwise
    it leaves the context that the token counts alone determine. *)
Lemma pack_checked_outcome (max_token_count : Z) (texts : list pystr) :
  forall current,
    pack_checked max_token_count texts current []
    = match first_encode_error
              (take (S (length (pack max_token_count texts current []))) texts) with
      | Some e => Raise e
      | None => Ok (pack max_token_count texts current [])
      end.
Proof.
  unfold first_encode_error.
  induction texts as [|t texts IH]; intros current; [reflexivity|].
  rewrite pack_cons. cbn [pack_checked]. unfold encode_checked.
  destruct (encode_error t) as [e|] eqn:Ht; cbn [bind].
  - destruct (_ <? _); cbn [length take]; simpl omap; now rewrite Ht.
  - fold (count_tokens t).
    destruct (current + count_tokens t <? max_token_count).
    + rewrite pack_checked_context, IH. cbn [length take]. simpl omap.
      rewrite Ht. now destruct (head _).
    + cbn [length take]. simpl omap. now rewrite Ht.
Qed.

(** Where the tokenizer raises nothing, the two descriptions of
    [create_prompt] and of [answer_question] agree. *)
Lemma create_prompt_checked_accepted
    (question : pystr) (df : list Row) (max_token_count : Z) :
  get_encoding = Ok tt ->
  first_encode_error [prompt_template; question] = None ->
  (forall ranked,
     get_rows_by_relevance question df = Ok ranked ->
     first_encode_error
       (encoded_texts question (List.map (fun r : RankedRow => text r) ranked)
                      max_token_count)
     = None) ->
  create_prompt_checked question df max_token_count
  = create_prompt question df max_token_count.
Proof.
  unfold first_encode_error. simpl omap. intros Hload Hfirst Htexts.
  rewrite create_prompt_select.
  unfold create_prompt_checked, encode_checked. rewrite Hload. cbn [bind].
  destruct (encode_error prompt_template); [discriminate|].
  destruct (encode_error question); [discriminate|]. cbn [bind].
  destruct (get_rows_by_relevance question df) as [ranked|e]; cbn [bind];
    [|reflexivity].
  rewrite pack_checked_outcome.
  specialize (Htexts ranked eq_refl).
  unfold encoded_texts, select_context, first_encode_error in *.
  now rewrite Htexts.
Qed.

Lemma answer_question_checked_accepted
    (question : pystr) (df : list Row) (max_prompt_tokens max_answer_tokens : Z)
    (out : stdout) :
  create_prompt_checked question df max_prompt_tokens
  = create_prompt question df max_prompt_tokens ->
  answer_question_checked question df max_prompt_tokens max_answer_tokens out
  = answer_question question df max_prompt_tokens max_answer_tokens out.
Proof.
  intros Hsame. unfold answer_question_checked, answer_question.
  now rewrite Hsame.
Qed.

(** X20. What [create_prompt] raises and what it returns. It raises what
    loading the encoding raises; else what the tokenizer raises on the
    template or on the question (tiktoken's [ValueError] for a special
    token), before anything is ranked; else what ranking raises; else what
    the tokenizer raises on the first text it refuses among the texts the
    loop encodes, which are the context and the text the loop stops at.
    Otherwise it returns the text of the template before its first slot,
    the context block, the text between the slots, the question and the
    text after the second slot: context and question are copied as they
    are, braces included. *)
Theorem create_prompt_raises_or_renders
    (question : pystr) (df : list Row) (max_token_count : Z) :
  create_prompt_checked question df max_token_count
  = match get_encoding with
    | Raise e => Raise e
    | Ok _ =>
        match first_encode_error [prompt_template; question] with
        | Some e => Raise e
        | None =>
            match get_rows_by_relevance question df with
            | Raise e => Raise e
            | Ok ranked =>
                let texts := List.map (fun r : RankedRow => text r) ranked in
                match first_encode_error
                        (encoded_texts question texts max_token_count) with
                | Some e => Raise e
                | None =>
                    Ok (template_head
                          ++ join JOINER
                               (select_context question texts max_token_count)
                          ++ template_mid ++ question ++ template_tail)
                end
            end
        end
    end.
Proof.
  unfold create_prompt_checked, encode_checked, first_encode_error.
  destruct get_encoding as [u|e]; cbn [bind]; [|reflexivity].
  simpl omap.
  destruct (encode_error prompt_template); cbn [bind head]; [reflexivity|].
  destruct (encode_error question); cbn [bind head]; [reflexivity|].
  destruct (get_rows_by_relevance question df) as [ranked|e]; cbn [bind];
    [|reflexivity].
  cbv zeta. rewrite pack_checked_outcome.
  unfold encoded_texts, select_context, first_encode_error.
  destruct (head _); cbn [bind]; [reflexivity|].
  apply format_prompt_template.
Qed.

(** X21. A frame that has its columns and no rows, with the encoding
    loaded and the template accepted by the tokenizer. A question the
    tokenizer refuses (one that holds a special token) raises the
    tokenizer's exception, and no embedding is asked for. Any other
    question is embedded all the same: when that call returns, ranking is
    empty and the prompt holds the template and the question around an
    empty context, whatever the budget; when it raises, [create_prompt]
    raises the same exception. *)
Theorem empty_frame_prompt (question : pystr) (max_token_count : Z) :
  get_encoding = Ok tt ->
  encode_error prompt_template = None ->
  get_rows_by_relevance question []
  = match get_embedding question EMBEDDING_MODEL_NAME with
    | Ok _ => Ok []
    | Raise e => Raise e
    end
  /\ create_prompt_checked question [] max_token_count
     = match encode_error question with
       | Some e => Raise e
       | None =>
           match get_embedding question EMBEDDING_MODEL_NAME with
           | Ok _ => Ok (template_head ++ template_mid ++ question ++ template_tail)
           | Raise e => Raise e
           end
       end.
Proof.
  intros Hload Htemplate.
  assert (Hrank : get_rows_by_relevance question []
                  = match get_embedding question EMBEDDING_MODEL_NAME with
                    | Ok _ => Ok []
                    | Raise e => Raise e
                    end).
  { unfold get_rows_by_relevance.
    destruct (get_embedding question EMBEDDING_MODEL_NAME) as [q|e]; simpl bind;
      [|reflexivity].
    simpl zip_with. unfold sort_values.
    induction (argsort _) as [|o order IH]; [reflexivity|exact IH]. }
  split; [exact Hrank|].
  unfold create_prompt_checked, encode_checked.
  rewrite Hload, Htemplate, Hrank. cbn [bind].
  destruct (encode_error question); cbn [bind]; [reflexivity|].
  destruct (get_embedding question EMBEDDING_MODEL_NAME) as [q|e]; cbn [bind];
    [|reflexivity].
  cbn [List.map pack_checked bind]. apply format_prompt_template.
Qed.

(** X24. The context holds texts of the frame only: every text in the
    context of a prompt is the text of a row of the frame. *)
Theorem context_from_frame
    (question : pystr) (df : list Row) (max_token_count : Z)
    (ranked : list RankedRow) :
  get_rows_by_relevance question df = Ok ranked ->
  Forall (fun t => exists r, In r df /\ text r = t)
         (select_context question
            (List.map (fun r : RankedRow => text r) ranked) max_token_count).
Proof.
  intros Hranked. apply List.Forall_forall. intros t Ht.
  destruct (pack_prefix max_token_count
              (List.map (fun r : RankedRow => text r) ranked)
              (len (encode prompt_template) + len (encode question)))
    as [rest Hrest].
  assert (Hin : In t (List.map (fun r : RankedRow => text r) ranked)).
  { rewrite Hrest. apply in_or_app. now left. }
  apply in_map_iff in Hin. destruct Hin as (r & <- & Hr).
  destruct (get_embedding question EMBEDDING_MODEL_NAME) as [q|e] eqn:Hq.
  - pose proof (ranked_rows_spec question df q ranked Hq Hranked) as Hown.
    rewrite List.Forall_forall in Hown. destruct (Hown r Hr) as [Hdf _].
    exists (row r). split; [exact Hdf|reflexivity].
  - unfold get_rows_by_relevance in Hranked. rewrite Hq in Hranked. discriminate.
Qed.

(** X22. A failure before the [try] is not swallowed. With the encoding
    loaded and the template accepted by the tokenizer, when ranking raises
    (the embedding call or the metric), [answer_question] raises and
    prints nothing: it raises the tokenizer's exception when the tokenizer
    refuses the question, which is met before anything is ranked, and else
    the exception of ranking, whatever its class. *)
Theorem ranking_failure_propagates
    (question : pystr) (df : list Row) (max_prompt_tokens max_answer_tokens : Z)
    (out : stdout) (e : exn) :
  get_encoding = Ok tt ->
  encode_error prompt_template = None ->
  get_rows_by_relevance question df = Raise e ->
  let raised :=
    match encode_error question with
    | Some refused => refused
    | None => e
    end in
  create_prompt_checked question df max_prompt_tokens = Raise raised
  /\ answer_question_checked question df max_prompt_tokens max_answer_tokens out
     = (Raise raised, out).
Proof.
  intros Hload Htemplate Hrank raised.
  assert (Hprompt : create_prompt_checked question df max_prompt_tokens = Raise raised).
  { unfold create_prompt_checked, encode_checked, raised.
    rewrite Hload, Htemplate, Hrank. cbn [bind].
    now destruct (encode_error question). }
  split; [exact Hprompt|]. unfold answer_question_checked. now rewrite Hprompt.
Qed.

(** X25. The count the loop keeps stays below the budget: whenever the
    context is not empty, the token counts of the template, of the
    question and of the texts in the context, each text counted by itself,
    add up to less than [max_token_count]; and a [max_token_count] that
    does not exceed the count of template and question leaves the context
    empty. *)
Theorem loop_count_below_budget
    (question : pystr) (texts : list pystr) (max_token_count : Z) :
  let base := count_tokens prompt_template + count_tokens question in
  let context := select_context question texts max_token_count in
  (context <> [] -> base + tokens_of context < max_token_count)
  /\ (max_token_count <= base -> context = []).
Proof.
  cbv zeta. unfold select_context. split.
  - intros Hne. apply pack_budget in Hne. exact Hne.
  - intros Hlow. apply pack_exhausted. unfold count_tokens in Hlow. lia.
Qed.

(** X23. Of the completion's answer only the first choice is used and
    nothing is printed; an answer with no choice is swallowed like a raised
    exception, as the [IndexError] of [choices[0]]; an exception outside
    [Exception] is not swallowed and nothing is printed. *)
Theorem answer_question_outcomes
    (question : pystr) (df : list Row) (max_prompt_tokens max_answer_tokens : Z)
    (out : stdout) (prompt : pystr) :
  create_prompt question df max_prompt_tokens = Ok prompt ->
  match completions_create COMPLETION_MODEL_NAME prompt max_answer_tokens with
  | Ok (choice :: _) =>
      answer_question question df max_prompt_tokens max_answer_tokens out
      = (Ok (choice, prompt), out)
  | Ok [] =>
      answer_question question df max_prompt_tokens max_answer_tokens out
      = (Ok ([], prompt), out ++ [str "list index out of range"])
  | Raise e =>
      isinstance_Exception e = false ->
      answer_question question df max_prompt_tokens max_answer_tokens out
      = (Raise e, out)
  end.
Proof.
  intros Hprompt. unfold answer_question, complete. rewrite Hprompt.
  destruct (completions_create _ _ _) as [[|choice others]|e]; cbv [bind].
  - reflexivity.
  - reflexivity.
  - now intros ->.
Qed.

End PromptMore.

(** The runs of X21 on the stubs: a question that holds a special token,
    and one that does not. *)
Lemma empty_frame_prompt_witness :
  create_prompt_checked (svc := Stub.services) (tk := Stub.tiktoken)
    (str "<|endoftext|>") [] 1500
  = Raise Stub.special_token_error
  /\ create_prompt_checked (svc := Stub.services) (tk := Stub.tiktoken)
       (str "q") [] 1500
     = Ok (template_head ++ template_mid ++ str "q" ++ template_tail).
Proof.
  split.
  - apply (proj2 (empty_frame_prompt (svc := Stub.services) (tk := Stub.tiktoken)
                    (str "<|endoftext|>") 1500 eq_refl eq_refl)).
  - apply (proj2 (empty_frame_prompt (svc := Stub.services) (tk := Stub.tiktoken)
                    (str "q") 1500 eq_refl eq_refl)).
Defined.

(** The run of X22 on the strict stub, which refuses the empty question. *)
Lemma ranking_failure_propagates_witness :
  create_prompt_checked (svc := strict_services) (tk := Stub.tiktoken)
    [] Stub.frame_pair 1500
  = Raise (PyException (str "BadRequestError") (str "input must not be empty"))
  /\ answer_question_checked (svc := strict_services) (tk := Stub.tiktoken)
       [] Stub.frame_pair 1500 500 []
     = (Raise (PyException (str "BadRequestError") (str "input must not be empty")),
        []).
Proof.
  apply (ranking_failure_propagates (svc := strict_services) (tk := Stub.tiktoken)
           [] Stub.frame_pair 1500 500 []
           (PyException (str "BadRequestError") (str "input must not be empty")));
    vm_compute; reflexivity.
Defined.

(** The run of X23 on the stubs. *)
Lemma answer_question_outcomes_witness :
  answer_question (svc := Stub.services) (str "q") Stub.frame_pair 1500 500 []
  = (Ok (str "stub answer",
         template_head ++ join JOINER [str "ab"; str "cd"] ++ template_mid
           ++ str "q" ++ template_tail),
     []).
Proof.
  apply (answer_question_outcomes (svc := Stub.services) (str "q") Stub.frame_pair
           1500 500 []).
  vm_compute. reflexivity.
Defined.

(** The run of X24 on the stubs. *)
Lemma context_from_frame_witness :
  Forall (fun t => exists r, In r Stub.frame_costs /\ text r = t)
         (select_context (svc := Stub.services) (str "q")
            (List.map (fun r : RankedRow => text r) Stub.ranked_costs) 200).
Proof.
  apply (context_from_frame (svc := Stub.services) (str "q") Stub.frame_costs 200).
  vm_compute. reflexivity.
Defined.
